(** * qunit-sinon-assertions: the value formatter, the assertion set and the
    spy validation, embedded from [utils.js], [assertions.js] and
    [index.js] of the test-support tree.

  The file is organised as the package is:
  - [Str]: the string primitives of the host (includes, replace with a
    global literal pattern, toLowerCase, slice, join);
  - [JS]: the values the formatter and the validation look at, their
    string conversion, and [JSON.stringify] with a replacer function;
  - [Utils]: [pluralize], [typeOf], [replacer], [format], [formatItems];
  - [Sinon]: the recorded history of a spy and the queries the
    assertions put to it;
  - [Assertions]: the class [SinonAssertions], by the result each
    operation reports;
  - [Effects]: the same operations with the conversions to a string that
    their templates make, which can raise;
  - [TestSupport]: [validateSpy] and the factory installed as
    [QUnit.assert.spy].
  The properties follow the definitions. *)

From Stdlib Require Import Bool List ZArith Lia Ascii String.
From Stdlib Require Import Numbers.DecimalString.
From Stdlib Require Import Sorting.Permutation.
From Equations Require Import Equations.
Set Warnings "-register-all".
Import ListNotations.
Open Scope string_scope.

(* ===================================================================== *)
(** ** Host string primitives *)
(* ===================================================================== *)

Module Str.

(** The characters the formatter singles out. *)
Definition dq : ascii := "034"%char.   (* double quotation mark *)
Definition sq : ascii := "039"%char.   (* single quotation mark *)
Definition bs : ascii := "092"%char.   (* backslash *)
Definition nl : ascii := "010"%char.   (* line feed *)

Definition str (c : ascii) : string := String c EmptyString.

(** [String.prototype.includes]. *)
Fixpoint includes (s sub : string) : bool :=
  prefix sub s ||
  match s with
  | EmptyString => false
  | String _ rest => includes rest sub
  end.

(** Membership of one character, the way a reader counts it. *)
Fixpoint has_char (c : ascii) (s : string) : bool :=
  match s with
  | EmptyString => false
  | String d rest => Ascii.eqb c d || has_char c rest
  end.

(** [s.replace(/pat/g, rep)] for a literal, non-empty pattern: matches
    are taken left to right and do not overlap. [skip] counts the
    characters of a match that are still to be passed over. *)
Fixpoint replace_loop (pat rep : string) (skip : nat) (s : string) : string :=
  match s with
  | EmptyString => EmptyString
  | String c rest =>
      match skip with
      | S k => replace_loop pat rep k rest
      | O =>
          if prefix pat s
          then rep ++ replace_loop pat rep (String.length pat - 1) rest
          else String c (replace_loop pat rep 0 rest)
      end
  end.

Definition replaceAll (pat rep s : string) : string :=
  replace_loop pat rep 0 s.

(** The text with every character put through [f]. *)
Fixpoint map_chars (f : ascii -> ascii) (s : string) : string :=
  match s with
  | EmptyString => EmptyString
  | String c rest => String (f c) (map_chars f rest)
  end.

(** [String.prototype.toLowerCase] on the ASCII letters. *)
Definition lower_char (c : ascii) : ascii :=
  let n := nat_of_ascii c in
  if (65 <=? n)%nat && (n <=? 90)%nat then ascii_of_nat (n + 32) else c.

Definition toLowerCase (s : string) : string := map_chars lower_char s.

(** [s.slice(from, -back)]. *)
Definition slice (from back : nat) (s : string) : string :=
  substring from (String.length s - back - from) s.

(** [Array.prototype.join] on an array of strings. *)
Fixpoint join (sep : string) (parts : list string) : string :=
  match parts with
  | [] => EmptyString
  | [p] => p
  | p :: rest => p ++ sep ++ join sep rest
  end.

(** Decimal rendering of an integer. *)
Definition of_Z (z : Z) : string := NilEmpty.string_of_int (Z.to_int z).

(** A character that [QuoteJSONString] leaves as it is: printable, and
    neither the double quotation mark nor the backslash. *)
Definition plain_char (c : ascii) : bool :=
  negb (Ascii.eqb c dq) && negb (Ascii.eqb c bs) && (32 <=? nat_of_ascii c)%nat.

Fixpoint plain_text (s : string) : bool :=
  match s with
  | EmptyString => true
  | String c rest => plain_char c && plain_text rest
  end.

(** How often a character occurs. *)
Fixpoint count_char (c : ascii) (s : string) : nat :=
  match s with
  | EmptyString => 0
  | String d rest => (if Ascii.eqb c d then 1 else 0) + count_char c rest
  end.

Fixpoint spaces (n : nat) : string :=
  match n with
  | O => EmptyString
  | S k => String " "%char (spaces k)
  end.

End Str.

(* ===================================================================== *)
(** ** Host values *)
(* ===================================================================== *)

Module JS.
Import Str.

(** Numbers: [Finite z] stands for the integer [z] when it is at most
    2^53 in magnitude, the range in which the host holds every integer
    exactly and prints all its digits; beyond it, and for fractions, the
    host rounds and prints otherwise, and no value of the model stands for
    such a number. The three numbers that are not finite are there too. *)
Inductive JSNumber :=
| Finite (z : Z)
| NaN
| Infinity (negative : bool).

(** A value as [JSON.stringify] and [Array.prototype.join] walk it: a
    tree, in which [VCycle] stands for a reference to a container the
    value is nested in (an enclosing array when [is_array], an enclosing
    plain object otherwise).
    - [VFunction source props]: a function, its source text (what
      [String(f)] gives) and its properties;
    - [VObject tag text props]: an object whose
      [Object.prototype.toString] tag is [tag], whose own string form
      is [text], with its enumerable properties in the engine's
      enumeration order.
    - [VSymbol description]: a symbol, which no template literal and no
      [join] can turn into a string;
    - [VNullProto props]: an object without prototype, as
      [Object.create(null)] makes it, which has no conversion to a string
      at all.
    Big integers, boxed primitives, [toJSON] methods and properties with
    getters are outside the model. *)
Inductive JSValue :=
| VUndefined
| VNull
| VBool (b : bool)
| VNumber (n : JSNumber)
| VString (s : string)
| VFunction (source : string) (props : list (string * JSValue))
| VArray (items : list JSValue)
| VObject (tag : string) (text : string) (props : list (string * JSValue))
| VCycle (is_array : bool)
| VSymbol (description : string)
| VNullProto (props : list (string * JSValue)).

(** A plain object literal. *)
Definition plain (props : list (string * JSValue)) : JSValue :=
  VObject "Object" "[object Object]" props.

Inductive JSError :=
| TypeError (msg : string)
| RangeError (msg : string)
| Error (msg : string).

(** The outcome of an operation that may raise. *)
Inductive Completion (A : Type) :=
| Normal (a : A)
| Throw (e : JSError).
Arguments Normal {A} a.
Arguments Throw {A} e.

Definition raises {A : Type} (c : Completion A) : bool :=
  match c with
  | Normal _ => false
  | Throw _ => true
  end.

(** One step after another: the second is not run when the first raises. *)
Definition bind {A B : Type} (c : Completion A) (k : A -> Completion B) :
    Completion B :=
  match c with
  | Normal a => k a
  | Throw e => Throw e
  end.

Notation "x <- c ;; k" := (bind c (fun x => k))
  (at level 61, c at next level, right associativity).

(** Run steps in order; the first one that raises ends the run. *)
Fixpoint collect {A : Type} (steps : list (Completion A)) : Completion (list A) :=
  match steps with
  | [] => Normal []
  | Throw e :: _ => Throw e
  | Normal a :: rest =>
      match collect rest with
      | Normal l => Normal (a :: l)
      | Throw e => Throw e
      end
  end.

(** The tag [Object.prototype.toString] reports. *)
Definition classTag (value : JSValue) : string :=
  match value with
  | VUndefined => "Undefined"
  | VNull => "Null"
  | VBool _ => "Boolean"
  | VNumber _ => "Number"
  | VString _ => "String"
  | VFunction _ _ => "Function"
  | VArray _ => "Array"
  | VObject tag _ _ => tag
  | VCycle true => "Array"
  | VCycle false => "Object"
  | VSymbol _ => "Symbol"
  | VNullProto _ => "Object"
  end.

Definition Object_prototype_toString (value : JSValue) : string :=
  "[object " ++ classTag value ++ "]".

(** The [typeof] operator. *)
Definition typeof (value : JSValue) : string :=
  match value with
  | VUndefined => "undefined"
  | VBool _ => "boolean"
  | VNumber _ => "number"
  | VString _ => "string"
  | VFunction _ _ => "function"
  | VSymbol _ => "symbol"
  | VNull | VArray _ | VObject _ _ _ | VCycle _ | VNullProto _ => "object"
  end.

(** The text of a number: all the digits of an integer in the range that
    [Finite] stands for. *)
Definition Number_toString (n : JSNumber) : string :=
  match n with
  | Finite z => of_Z z
  | NaN => "NaN"
  | Infinity false => "Infinity"
  | Infinity true => "-Infinity"
  end.

(** The conversion to a string that a template literal and [join] make,
    which is also what [String(value)] does for an object or a function.
    It raises a type error for a symbol and for an object without
    prototype. An array joins its elements with a comma; an element that
    is undefined, null or the array being joined itself contributes
    nothing, and an element that cannot be converted makes the whole
    conversion raise. *)
Fixpoint ToString (value : JSValue) : Completion string :=
  match value with
  | VUndefined => Normal "undefined"
  | VNull => Normal "null"
  | VBool true => Normal "true"
  | VBool false => Normal "false"
  | VNumber n => Normal (Number_toString n)
  | VString s => Normal s
  | VFunction source _ => Normal source
  | VArray items =>
      parts <- collect
                 (map (fun item =>
                         match item with
                         | VUndefined | VNull => Normal EmptyString
                         | _ => ToString item
                         end) items) ;;
      Normal (join "," parts)
  | VObject _ text _ => Normal text
  | VCycle true => Normal EmptyString
  | VCycle false => Normal "[object Object]"
  | VSymbol _ => Throw (TypeError "Cannot convert a Symbol value to a string")
  | VNullProto _ => Throw (TypeError "Cannot convert object to primitive value")
  end.

(** The string of a value that has one. *)
Definition text_of (value : JSValue) : string :=
  match ToString value with
  | Normal s => s
  | Throw _ => EmptyString
  end.

(** [ToBoolean]. *)
Definition ToBoolean (value : JSValue) : bool :=
  match value with
  | VUndefined | VNull => false
  | VBool b => b
  | VNumber (Finite z) => negb (z =? 0)%Z
  | VNumber NaN => false
  | VNumber (Infinity _) => true
  | VString s => negb (s =? EmptyString)
  | VFunction _ _ | VArray _ | VObject _ _ _ | VCycle _
  | VSymbol _ | VNullProto _ => true
  end.

Fixpoint lookup (key : string) (props : list (string * JSValue)) : JSValue :=
  match props with
  | [] => VUndefined
  | (k, v) :: rest => if k =? key then v else lookup key rest
  end.

(** Property read [value.key] on a value that is neither undefined nor
    null. The inherited members of functions and objects are none of the
    names read here, so only the properties of the value are looked at. *)
Definition Get (value : JSValue) (key : string) : JSValue :=
  match value with
  | VFunction _ props | VObject _ _ props | VNullProto props => lookup key props
  | _ => VUndefined
  end.

(** Whether a value is a reference back to a container it is nested in. *)
Definition is_back_reference (value : JSValue) : bool :=
  match value with
  | VCycle _ => true
  | _ => false
  end.

(** Nesting depth and size of a value. *)
Fixpoint depth (value : JSValue) : nat :=
  match value with
  | VArray items => S (list_max (map depth items))
  | VObject _ _ props | VNullProto props =>
      S (list_max (map (fun p => depth (snd p)) props))
  | _ => 0
  end.

Fixpoint size (value : JSValue) : nat :=
  match value with
  | VArray items => S (list_sum (map size items))
  | VObject _ _ props | VFunction _ props | VNullProto props =>
      S (list_sum (map (fun p => size (snd p)) props))
  | _ => 1
  end.

(** *** JSON.stringify

    [QuoteJSONString]: the text between double quotation marks, with the
    quotation mark, the backslash and the control characters escaped. *)
Definition hex_digit (n : nat) : ascii :=
  match get n "0123456789abcdef" with
  | Some c => c
  | None => "0"%char
  end.

Definition quote_char (c : ascii) : string :=
  let n := nat_of_ascii c in
  if Ascii.eqb c dq then String bs (str dq)
  else if Ascii.eqb c bs then String bs (str bs)
  else if (n =? 8)%nat then String bs "b"
  else if (n =? 9)%nat then String bs "t"
  else if (n =? 10)%nat then String bs "n"
  else if (n =? 12)%nat then String bs "f"
  else if (n =? 13)%nat then String bs "r"
  else if (n <? 32)%nat
  then String bs ("u00" ++ String (hex_digit (n / 16)) (str (hex_digit (n mod 16))))
  else str c.

Fixpoint quote_body (s : string) : string :=
  match s with
  | EmptyString => EmptyString
  | String c rest => quote_char c ++ quote_body rest
  end.

Definition QuoteJSONString (s : string) : string :=
  String dq (quote_body s ++ str dq).

(** The keys of an array's elements. *)
Definition indexed (items : list JSValue) : list (string * JSValue) :=
  combine (map (fun i => of_Z (Z.of_nat i)) (seq 0 (List.length items))) items.

Section Stringify.

(** The replacer function, called with the key and the value of every
    property, which may raise, and the indentation unit. *)
Variable ReplacerFunction : string -> JSValue -> Completion JSValue.
Variable gap : string.

(** [SerializeJSONProperty], with [SerializeJSONArray] and
    [SerializeJSONObject] in its last two cases. The result [None] is the
    undefined the algorithm returns for what JSON cannot express.
    [fuel] bounds the nesting of calls, as the call stack of the engine
    does; [indent] is the current indentation. A [VCycle] is a value that
    is on the stack of containers being serialised. *)
Fixpoint SerializeJSONProperty (fuel : nat) (indent : string)
    (key : string) (value : JSValue) : Completion (option string) :=
  match fuel with
  | O => Throw (RangeError "Maximum call stack size exceeded")
  | S fuel' =>
      replaced <- ReplacerFunction key value ;;
      match replaced with
      | VNull => Normal (Some "null")
      | VBool true => Normal (Some "true")
      | VBool false => Normal (Some "false")
      | VString s => Normal (Some (QuoteJSONString s))
      | VNumber (Finite z) => Normal (Some (Number_toString (Finite z)))
      | VNumber _ => Normal (Some "null")
      | VUndefined => Normal None
      | VFunction _ _ => Normal None
      | VSymbol _ => Normal None
      | VCycle _ => Throw (TypeError "Converting circular structure to JSON")
      | VArray items =>
          let stepback := indent in
          let indent := indent ++ gap in
          match collect (map (fun kv => SerializeJSONProperty fuel' indent (fst kv) (snd kv))
                             (indexed items)) with
          | Throw e => Throw e
          | Normal strs =>
              let partial :=
                map (fun strP => match strP with Some t => t | None => "null" end) strs in
              Normal (Some
                (match partial with
                 | [] => "[]"
                 | _ =>
                     if gap =? EmptyString
                     then "[" ++ join "," partial ++ "]"
                     else "[" ++ str nl ++ indent
                          ++ join ("," ++ str nl ++ indent) partial
                          ++ str nl ++ stepback ++ "]"
                 end))
          end
      | VObject _ _ props | VNullProto props =>
          let stepback := indent in
          let indent := indent ++ gap in
          match collect (map (fun kv => SerializeJSONProperty fuel' indent (fst kv) (snd kv))
                             props) with
          | Throw e => Throw e
          | Normal strs =>
              let partial :=
                flat_map (fun ks =>
                            match snd ks with
                            | Some t =>
                                [QuoteJSONString (fst ks) ++ ":"
                                 ++ (if gap =? EmptyString then EmptyString else " ") ++ t]
                            | None => []
                            end)
                         (combine (map fst props) strs) in
              Normal (Some
                (match partial with
                 | [] => "{}"
                 | _ =>
                     if gap =? EmptyString
                     then "{" ++ join "," partial ++ "}"
                     else "{" ++ str nl ++ indent
                          ++ join ("," ++ str nl ++ indent) partial
                          ++ str nl ++ stepback ++ "}"
                 end))
          end
      end
  end.

End Stringify.

(** [JSON.stringify(value, replacer, space)] for a replacer function and a
    numeric [space]. The nesting allowed is one more than the depth of
    the value, which a replacer that hands containers back as they are
    never exceeds. *)
Definition JSON_stringify (value : JSValue)
    (replacer : string -> JSValue -> Completion JSValue) (space : nat) :
    Completion (option string) :=
  SerializeJSONProperty replacer (spaces (Nat.min 10 space))
    (S (depth value)) EmptyString EmptyString value.

End JS.

(* ===================================================================== *)
(** ** utils.js *)
(* ===================================================================== *)

Module Utils.
Import Str JS.

Definition pluralize (word : string) (count : Z) : string :=
  if (count =? 1)%Z then word else word ++ "s".

Definition typeOf (value : JSValue) : string :=
  slice 8 1 (toLowerCase (Object_prototype_toString value)).

Definition jsonTypes : list string :=
  ["string"; "number"; "boolean"; "null"; "array"; "object"].

Definition Array_includes (l : list string) (x : string) : bool :=
  existsb (String.eqb x) l.

Definition undefined_mark : string := "<undefined>".

(** [String(value)] is evaluated, and may raise, only where the source
    reaches it: for a value whose [typeOf] is object, and for a function. *)
Definition replacer (_ : string) (value : JSValue) : Completion JSValue :=
  match value with
  | VUndefined => Normal (VString undefined_mark)
  | _ =>
      own_text <-
        (if typeOf value =? "object"
         then text <- ToString value ;;
              Normal (if text =? "[object Object]" then None else Some text)
         else Normal None) ;;
      match own_text with
      | Some text => Normal (VString text)
      | None =>
          if typeof value =? "function"
          then text <- ToString value ;; Normal (VString text)
          else if negb (Array_includes jsonTypes (typeOf value))
          then Normal (VString (Object_prototype_toString value))
          else Normal value
      end
  end.

(** What [format] hands back: the rendered text, or, when the rendering
    raised, the value it was given. *)
Inductive Formatted :=
| Text (s : string)
| Raw (value : JSValue).

(** The three replacements applied to the encoded text. *)
Definition unquote_undefined (s : string) : string :=
  replaceAll (String dq (undefined_mark ++ str dq)) "undefined" s.

Definition unescape_quotes (s : string) : string :=
  replaceAll (String bs (str dq)) (str sq) s.

Definition single_quotes (s : string) : string :=
  replaceAll (str dq) (str sq) s.

Definition format (value : JSValue) (isIndented : bool) : Formatted :=
  let space := if isIndented then 2 else 0 in
  match JSON_stringify value replacer space with
  | Normal (Some json) =>
      let result := single_quotes (unescape_quotes (unquote_undefined json)) in
      Text (if includes result (str nl)
            then "`" ++ str nl ++ result ++ str nl ++ "`"
            else "`" ++ result ++ "`")
  | Normal None => Raw value   (* [undefined.replace] raises inside the try *)
  | Throw _ => Raw value
  end.

Definition formatItems (items : list JSValue) (isIndented : bool) : list Formatted :=
  map (fun item => format item isIndented) items.

(** A formatted item inside a template literal: a raw value is converted
    to a string, which may raise. *)
Definition template (f : Formatted) : Completion string :=
  match f with
  | Text s => Normal s
  | Raw value => ToString value
  end.

(** [items.join(sep)] on what [formatItems] returns, with the conversions
    it makes. *)
Definition Array_join (sep : string) (items : list Formatted) : Completion string :=
  parts <- collect
             (map (fun f =>
                     match f with
                     | Raw VUndefined | Raw VNull => Normal EmptyString
                     | _ => template f
                     end) items) ;;
  Normal (join sep parts).

(** The text a formatted item contributes to a template literal whose
    conversions return. *)
Definition interpolate (f : Formatted) : string :=
  match f with
  | Text s => s
  | Raw value => text_of value
  end.

(** The text of [items.join(sep)] when its conversions return. *)
Definition join_items (sep : string) (items : list Formatted) : string :=
  join sep
    (map (fun f =>
            match f with
            | Raw VUndefined | Raw VNull => EmptyString
            | _ => interpolate f
            end) items).

End Utils.

(* ===================================================================== *)
(** ** The spy *)
(* ===================================================================== *)

(** Modelled from the spec: the spy is an external collaborator (Sinon),
    not part of the package. What the assertions read of it is its display
    name and the ordered calls it has recorded, each with its arguments,
    its return value and what it threw; its queries are functions of that
    history: a non-strict match of a leading part of the arguments, an
    exact match, a returned value, a thrown exception, and the call at an
    index. How two values are compared is left to the host. *)
Module Sinon.
Import JS.

(** One recorded call. [exception] is undefined when the call returned. *)
Record SpyCall := {
  call_args : list JSValue;
  returnValue : JSValue;
  exception : JSValue
}.

Record Spy := {
  name : string;
  calls : list SpyCall
}.

(** The comparisons of the host: [deepEqual expectation actual], which
    also runs matchers, and strict equality. *)
Class Matching := {
  deepEqual : JSValue -> JSValue -> bool;
  strictEqual : JSValue -> JSValue -> bool
}.

(** Structural comparison, without matchers. *)
Fixpoint JSValue_eqb (a b : JSValue) : bool :=
  match a, b with
  | VUndefined, VUndefined => true
  | VNull, VNull => true
  | VBool x, VBool y => Bool.eqb x y
  | VNumber (Finite x), VNumber (Finite y) => (x =? y)%Z
  | VNumber (Infinity x), VNumber (Infinity y) => Bool.eqb x y
  | VString x, VString y => (x =? y)%string
  | VFunction s1 _, VFunction s2 _ => (s1 =? s2)%string
  | VArray xs, VArray ys =>
      (fix all2 (l1 l2 : list JSValue) : bool :=
         match l1, l2 with
         | [], [] => true
         | x :: r1, y :: r2 => JSValue_eqb x y && all2 r1 r2
         | _, _ => false
         end) xs ys
  | VObject t1 s1 p1, VObject t2 s2 p2 =>
      (t1 =? t2)%string && (s1 =? s2)%string &&
      (fix all2 (l1 l2 : list (string * JSValue)) : bool :=
         match l1, l2 with
         | [], [] => true
         | (k1, x) :: r1, (k2, y) :: r2 =>
             (k1 =? k2)%string && JSValue_eqb x y && all2 r1 r2
         | _, _ => false
         end) p1 p2
  | VCycle x, VCycle y => Bool.eqb x y
  | VSymbol x, VSymbol y => (x =? y)%string
  | VNullProto p1, VNullProto p2 =>
      (fix all2 (l1 l2 : list (string * JSValue)) : bool :=
         match l1, l2 with
         | [], [] => true
         | (k1, x) :: r1, (k2, y) :: r2 =>
             (k1 =? k2)%string && JSValue_eqb x y && all2 r1 r2
         | _, _ => false
         end) p1 p2
  | _, _ => false
  end.

Definition structural : Matching :=
  {| deepEqual := JSValue_eqb; strictEqual := JSValue_eqb |}.

Section Queries.
Context {M : Matching}.

(** Queries on one call. *)
Definition call_calledWith (c : SpyCall) (expected : list JSValue) : bool :=
  if (List.length (call_args c) <? List.length expected)%nat then false
  else forallb (fun ea => deepEqual (fst ea) (snd ea))
               (combine expected (call_args c)).

Definition call_calledWithExactly (c : SpyCall) (expected : list JSValue) : bool :=
  (List.length expected =? List.length (call_args c))%nat
  && call_calledWith c expected.

Definition call_returned (c : SpyCall) (value : JSValue) : bool :=
  deepEqual value (returnValue c).

Definition call_threw (c : SpyCall) (error : JSValue) : bool :=
  if (typeof error =? "undefined")%string || negb (ToBoolean (exception c))
  then ToBoolean (exception c)
  else strictEqual (exception c) error
       || strictEqual (Get (exception c) "name") error.

(** Modelled from the spec: the queries on the spy are true when some
    recorded call answers true, and false when the spy was never called. *)
Definition callCount (s : Spy) : nat := List.length (calls s).

Definition args (s : Spy) : list JSValue :=
  map (fun c => VArray (call_args c)) (calls s).

Definition returnValues (s : Spy) : list JSValue :=
  map returnValue (calls s).

Definition calledWith (s : Spy) (expected : list JSValue) : bool :=
  existsb (fun c => call_calledWith c expected) (calls s).

Definition calledWithExactly (s : Spy) (expected : list JSValue) : bool :=
  existsb (fun c => call_calledWithExactly c expected) (calls s).

Definition returned (s : Spy) (value : JSValue) : bool :=
  existsb (fun c => call_returned c value) (calls s).

Definition threw (s : Spy) (error : JSValue) : bool :=
  existsb (fun c => call_threw c error) (calls s).

(** Modelled from the spec: [getCall(index)], where a negative index
    counts from the last call; null when no call has that index, so
    [getCall(-1)] is the last call when there is one. *)
Definition getCall (s : Spy) (index : Z) : option SpyCall :=
  let count := Z.of_nat (callCount s) in
  let i := if (index <? 0)%Z then (index + count)%Z else index in
  if (i <? 0)%Z || (count <=? i)%Z then None
  else nth_error (calls s) (Z.to_nat i).

(** The spy inside a template literal: its display name. *)
Definition Spy_toString (s : Spy) : string := name s.

End Queries.
End Sinon.

(* ===================================================================== *)
(** ** assertions.js *)
(* ===================================================================== *)

Module Assertions.
Import Str JS Utils.

(** Modelled from the spec: the result sink is the test context of QUnit,
    an external collaborator. Its [pushResult] receives a result, an
    expected text, an actual text and a message, and appends them to the
    results recorded so far, oldest first. *)
Record PushedResult := {
  pushed_result : bool;
  pushed_expected : string;
  pushed_actual : string;
  pushed_message : string
}.

Definition TestContext := list PushedResult.

Definition QUnit_pushResult (testContext : TestContext) (r : PushedResult) :
    TestContext :=
  (testContext ++ [r])%list.

(** An instance of the class: the two fields its constructor stores. An
    operation that returns [this] returns the instance with whatever the
    operation did to the test context. *)
Record SinonAssertions (S : Type) := mkSinonAssertions {
  spy : S;
  testContext : TestContext
}.
Arguments mkSinonAssertions {S} spy testContext.
Arguments spy {S} _.
Arguments testContext {S} _.

(** The argument of the private [pushResult]. *)
Record Outcome := {
  message : option string;
  result : bool;
  expected : string;
  actual : string;
  error : string
}.

(** The message as a condition sees it: an absent message and the empty
    string both count as no message. *)
Definition truthy (msg : option string) : option string :=
  match msg with
  | Some m => if m =? EmptyString then None else Some m
  | None => None
  end.

Definition pushResult {S : Type} (this : SinonAssertions S) (o : Outcome) :
    SinonAssertions S :=
  let msg := truthy (message o) in
  let message :=
    if result o
    then match msg with
         | Some m => m
         | None => expected o
         end
    else match msg with
         | Some m => m ++ str nl
         | None => EmptyString
         end ++ error o in
  {| spy := spy this;
     testContext :=
       QUnit_pushResult (testContext this)
         {| pushed_result := result o;
            pushed_expected := expected o;
            pushed_actual := actual o;
            pushed_message := message |} |}.

(** An instance bound to a spy: what is reachable from it, the recorded
    history of the spy and the results of the test context. *)
Definition Bound : Type := SinonAssertions Sinon.Spy.

(** [format(v)] inside a template literal whose conversion returns. The
    operations of this module give the result that an operation hands to
    [pushResult]; that its templates can raise before it gets there is
    the matter of [Effects]. *)
Definition fmt (v : JSValue) : string := interpolate (format v false).

Section Checks.
Context {M : Sinon.Matching}.

Notation "'$' s" := (Sinon.Spy_toString s) (at level 9, only parsing).

Definition called (message : option string) (this : Bound) : Bound :=
  let spy := spy this in
  pushResult this
    {| message := message;
       result := (0 <? Sinon.callCount spy)%nat;
       expected := $spy ++ " was called at least once";
       actual := $spy ++ " was not called";
       error := "Expected " ++ $spy
                ++ " to be called at least once, but it was not called." |}.

Definition calledTimes (count : Z) (message : option string) (this : Bound) : Bound :=
  let spy := spy this in
  let callCount := Z.of_nat (Sinon.callCount spy) in
  let expectedTimes := of_Z count ++ " " ++ pluralize "time" count in
  let actualTimes := of_Z callCount ++ " " ++ pluralize "time" callCount in
  pushResult this
    {| message := message;
       result := (callCount =? count)%Z;
       expected := $spy ++ " was called " ++ expectedTimes;
       actual := $spy ++ " was called " ++ actualTimes;
       error := "Expected " ++ $spy ++ " to be called " ++ expectedTimes
                ++ ", but it was called " ++ actualTimes ++ "." |}.

Definition calledOnce (message : option string) (this : Bound) : Bound :=
  calledTimes 1 message this.

Definition calledTwice (message : option string) (this : Bound) : Bound :=
  calledTimes 2 message this.

Definition notCalled (message : option string) (this : Bound) : Bound :=
  calledTimes 0 message this.

Definition calledWith (args : list JSValue) (message : option string)
    (this : Bound) : Bound :=
  let spy := spy this in
  let actualState :=
    if (Sinon.callCount spy =? 0)%nat
    then "not called at all"
    else "called with: " ++ join_items (str nl) (formatItems (Sinon.args spy) false) in
  pushResult this
    {| message := message;
       result := Sinon.calledWith spy args;
       expected := $spy ++ " was called with: " ++ fmt (VArray args);
       actual := $spy ++ " was " ++ actualState;
       error := "Expected " ++ $spy ++ " to be called with: " ++ fmt (VArray args)
                ++ ", but it was " ++ actualState ++ "." |}.

Definition calledWithExactly (args : list JSValue) (message : option string)
    (this : Bound) : Bound :=
  let spy := spy this in
  let actualState :=
    if (Sinon.callCount spy =? 0)%nat
    then "not called at all"
    else "called with: " ++ join_items (str nl) (formatItems (Sinon.args spy) false) in
  pushResult this
    {| message := message;
       result := Sinon.calledWithExactly spy args;
       expected := $spy ++ " was called with: " ++ fmt (VArray args);
       actual := $spy ++ " was " ++ actualState;
       error := "Expected " ++ $spy ++ " to be called with exactly: "
                ++ fmt (VArray args) ++ ", but it was " ++ actualState ++ "." |}.

Definition notCalledWith (args : list JSValue) (message : option string)
    (this : Bound) : Bound :=
  let spy := spy this in
  pushResult this
    {| message := message;
       result := negb (Sinon.calledWith spy args);
       expected := $spy ++ " was never called with: " ++ fmt (VArray args);
       actual := $spy ++ " was called with: " ++ fmt (VArray args);
       error := "Expected " ++ $spy ++ " to never be called with: "
                ++ fmt (VArray args) ++ ", but it was." |}.

Definition notCalledWithExactly (args : list JSValue) (message : option string)
    (this : Bound) : Bound :=
  let spy := spy this in
  pushResult this
    {| message := message;
       result := negb (Sinon.calledWithExactly spy args);
       expected := $spy ++ " was never called with: " ++ fmt (VArray args);
       actual := $spy ++ " was called with: " ++ fmt (VArray args);
       error := "Expected " ++ $spy ++ " to never be called with exactly: "
                ++ fmt (VArray args) ++ ", but it was." |}.

Definition returnedWith (value : JSValue) (message : option string)
    (this : Bound) : Bound :=
  let spy := spy this in
  pushResult this
    {| message := message;
       result := Sinon.returned spy value;
       expected := $spy ++ " returned " ++ fmt value;
       actual := $spy ++ " returned "
                 ++ join_items (str nl) (formatItems (Sinon.returnValues spy) false);
       error := "Expected " ++ $spy ++ " to return " ++ fmt value
                ++ " at least once, but it did not." |}.

Definition didNotReturnWith (value : JSValue) (message : option string)
    (this : Bound) : Bound :=
  let spy := spy this in
  pushResult this
    {| message := message;
       result := negb (Sinon.returned spy value);
       expected := $spy ++ " did not return " ++ fmt value;
       actual := $spy ++ " returned " ++ fmt value;
       error := "Expected " ++ $spy ++ " to never return " ++ fmt value
                ++ ", but it did." |}.

Definition threw (message : option string) (this : Bound) : Bound :=
  let spy := spy this in
  pushResult this
    {| message := message;
       result := Sinon.threw spy VUndefined;
       expected := $spy ++ " threw";
       actual := $spy ++ " did not throw";
       error := "Expected " ++ $spy ++ " to throw at least once, but it did not." |}.

Definition threwWith (exception : JSValue) (message : option string)
    (this : Bound) : Bound :=
  let spy := spy this in
  pushResult this
    {| message := message;
       result := Sinon.threw spy exception;
       expected := $spy ++ " threw with " ++ fmt exception;
       actual := $spy ++ " did not throw with " ++ fmt exception;
       error := "Expected " ++ $spy ++ " to throw with " ++ fmt exception
                ++ ", but it did not." |}.

Definition lastCalledWith (args : list JSValue) (message : option string)
    (this : Bound) : Bound :=
  let spy := spy this in
  let lastCall := Sinon.getCall spy (-1) in
  let actualState :=
    match lastCall with
    | Some c => "last called with: " ++ fmt (VArray (Sinon.call_args c))
    | None => "not called at all"
    end in
  pushResult this
    {| message := message;
       result := match lastCall with
                 | Some c => Sinon.call_calledWith c args
                 | None => false
                 end;
       expected := $spy ++ " was last called with: " ++ fmt (VArray args);
       actual := $spy ++ " was " ++ actualState;
       error := "Expected " ++ $spy ++ " to be last called with: "
                ++ fmt (VArray args) ++ ", but it was " ++ actualState ++ "." |}.

Definition lastCalledWithExactly (args : list JSValue) (message : option string)
    (this : Bound) : Bound :=
  let spy := spy this in
  let lastCall := Sinon.getCall spy (-1) in
  let actualState :=
    match lastCall with
    | Some c => "last called with: " ++ fmt (VArray (Sinon.call_args c))
    | None => "not called at all"
    end in
  pushResult this
    {| message := message;
       result := match lastCall with
                 | Some c => Sinon.call_calledWithExactly c args
                 | None => false
                 end;
       expected := $spy ++ " was last called with: " ++ fmt (VArray args);
       actual := $spy ++ " was " ++ actualState;
       error := "Expected " ++ $spy ++ " to be last called with exactly: "
                ++ fmt (VArray args) ++ ", but it was " ++ actualState ++ "." |}.

Definition lastReturnedWith (value : JSValue) (message : option string)
    (this : Bound) : Bound :=
  let spy := spy this in
  let lastCall := Sinon.getCall spy (-1) in
  let actualState :=
    match lastCall with
    | Some c => $spy ++ " last call returned " ++ fmt (Sinon.returnValue c)
    | None => $spy ++ " was not called at all"
    end in
  pushResult this
    {| message := message;
       result := match lastCall with
                 | Some c => Sinon.call_returned c value
                 | None => false
                 end;
       expected := $spy ++ " last call returned " ++ fmt value;
       actual := actualState;
       error := "Expected " ++ $spy ++ " last call to return " ++ fmt value
                ++ ", but " ++ actualState ++ "." |}.

Definition lastNotCalledWith (args : list JSValue) (message : option string)
    (this : Bound) : Bound :=
  let spy := spy this in
  let lastCall := Sinon.getCall spy (-1) in
  let actualState :=
    match lastCall with
    | Some c => "last called with: " ++ fmt (VArray (Sinon.call_args c))
    | None => "not called at all"
    end in
  pushResult this
    {| message := message;
       result := match lastCall with
                 | Some c => negb (Sinon.call_calledWith c args)
                 | None => false
                 end;
       expected := $spy ++ " was not last called with: " ++ fmt (VArray args);
       actual := $spy ++ " was " ++ actualState;
       error := "Expected " ++ $spy ++ " to not be last called with: "
                ++ fmt (VArray args) ++ ", but it was " ++ actualState ++ "." |}.

Definition lastNotCalledWithExactly (args : list JSValue) (message : option string)
    (this : Bound) : Bound :=
  let spy := spy this in
  let lastCall := Sinon.getCall spy (-1) in
  let actualState :=
    match lastCall with
    | Some c => "last called with: " ++ fmt (VArray (Sinon.call_args c))
    | None => "not called at all"
    end in
  pushResult this
    {| message := message;
       result := match lastCall with
                 | Some c => negb (Sinon.call_calledWithExactly c args)
                 | None => false
                 end;
       expected := $spy ++ " was not last called with: " ++ fmt (VArray args);
       actual := $spy ++ " was " ++ actualState;
       error := "Expected " ++ $spy ++ " to not be last called with exactly: "
                ++ fmt (VArray args) ++ ", but it was." |}.

Definition lastDidNotReturnWith (value : JSValue) (message : option string)
    (this : Bound) : Bound :=
  let spy := spy this in
  let lastCall := Sinon.getCall spy (-1) in
  let actualState :=
    match lastCall with
    | Some c => $spy ++ " last call returned " ++ fmt (Sinon.returnValue c)
    | None => $spy ++ " was not called at all"
    end in
  pushResult this
    {| message := message;
       result := match lastCall with
                 | Some c => negb (Sinon.call_returned c value)
                 | None => false
                 end;
       expected := $spy ++ " last call did not return " ++ fmt value;
       actual := actualState;
       error := "Expected " ++ $spy ++ " last call not to return " ++ fmt value
                ++ ", but it did." |}.

(** The public operations of the class, as a test writes them in a
    chain [assert.spy(fn).a(...).b(...)]. *)
Inductive Call :=
| Called (message : option string)
| CalledTimes (count : Z) (message : option string)
| CalledOnce (message : option string)
| CalledTwice (message : option string)
| NotCalled (message : option string)
| CalledWith (args : list JSValue) (message : option string)
| CalledWithExactly (args : list JSValue) (message : option string)
| NotCalledWith (args : list JSValue) (message : option string)
| NotCalledWithExactly (args : list JSValue) (message : option string)
| ReturnedWith (value : JSValue) (message : option string)
| DidNotReturnWith (value : JSValue) (message : option string)
| Threw (message : option string)
| ThrewWith (exception : JSValue) (message : option string)
| LastCalledWith (args : list JSValue) (message : option string)
| LastCalledWithExactly (args : list JSValue) (message : option string)
| LastReturnedWith (value : JSValue) (message : option string)
| LastNotCalledWith (args : list JSValue) (message : option string)
| LastNotCalledWithExactly (args : list JSValue) (message : option string)
| LastDidNotReturnWith (value : JSValue) (message : option string).

Definition invoke (c : Call) (this : Bound) : Bound :=
  match c with
  | Called m => called m this
  | CalledTimes n m => calledTimes n m this
  | CalledOnce m => calledOnce m this
  | CalledTwice m => calledTwice m this
  | NotCalled m => notCalled m this
  | CalledWith a m => calledWith a m this
  | CalledWithExactly a m => calledWithExactly a m this
  | NotCalledWith a m => notCalledWith a m this
  | NotCalledWithExactly a m => notCalledWithExactly a m this
  | ReturnedWith v m => returnedWith v m this
  | DidNotReturnWith v m => didNotReturnWith v m this
  | Threw m => threw m this
  | ThrewWith e m => threwWith e m this
  | LastCalledWith a m => lastCalledWith a m this
  | LastCalledWithExactly a m => lastCalledWithExactly a m this
  | LastReturnedWith v m => lastReturnedWith v m this
  | LastNotCalledWith a m => lastNotCalledWith a m this
  | LastNotCalledWithExactly a m => lastNotCalledWithExactly a m this
  | LastDidNotReturnWith v m => lastDidNotReturnWith v m this
  end.

(** A chain: each operation is invoked on what the one before returned. *)
Definition chain (cs : list Call) (this : Bound) : Bound :=
  fold_left (fun acc c => invoke c acc) cs this.

(** What one operation reports for a given spy: the results it leaves in
    a test context that was empty. *)
Definition reports (c : Call) (s : Sinon.Spy) : list PushedResult :=
  testContext (invoke c (mkSinonAssertions s [])).

(** The instance [after] is [before] with one more recorded result, whose
    verdict is [verdict]. *)
Definition reported (before after : Bound) (verdict : bool) : Prop :=
  exists r,
    after = mkSinonAssertions (spy before) (testContext before ++ [r])%list
    /\ pushed_result r = verdict.


End Checks.

(** The same operation with another message argument. *)
Definition with_message (m : option string) (c : Call) : Call :=
  match c with
  | Called _ => Called m
  | CalledTimes n _ => CalledTimes n m
  | CalledOnce _ => CalledOnce m
  | CalledTwice _ => CalledTwice m
  | NotCalled _ => NotCalled m
  | CalledWith a _ => CalledWith a m
  | CalledWithExactly a _ => CalledWithExactly a m
  | NotCalledWith a _ => NotCalledWith a m
  | NotCalledWithExactly a _ => NotCalledWithExactly a m
  | ReturnedWith v _ => ReturnedWith v m
  | DidNotReturnWith v _ => DidNotReturnWith v m
  | Threw _ => Threw m
  | ThrewWith e _ => ThrewWith e m
  | LastCalledWith a _ => LastCalledWith a m
  | LastCalledWithExactly a _ => LastCalledWithExactly a m
  | LastReturnedWith v _ => LastReturnedWith v m
  | LastNotCalledWith a _ => LastNotCalledWith a m
  | LastNotCalledWithExactly a _ => LastNotCalledWithExactly a m
  | LastDidNotReturnWith v _ => LastDidNotReturnWith v m
  end.

(** A spy named [f], called once as [f(1, 2)], which returned 3. *)
Definition spy_f : Sinon.Spy :=
  {| Sinon.name := "f";
     Sinon.calls :=
       [ {| Sinon.call_args := [VNumber (Finite 1); VNumber (Finite 2)];
            Sinon.returnValue := VNumber (Finite 3);
            Sinon.exception := VUndefined |} ] |}.

(** A spy named [g], called as [g(1)] and then as [g('a', null)]. *)
Definition spy_g : Sinon.Spy :=
  {| Sinon.name := "g";
     Sinon.calls :=
       [ {| Sinon.call_args := [VNumber (Finite 1)];
            Sinon.returnValue := VUndefined;
            Sinon.exception := VUndefined |};
         {| Sinon.call_args := [VString "a"; VNull];
            Sinon.returnValue := VUndefined;
            Sinon.exception := VUndefined |} ] |}.

End Assertions.

(* ===================================================================== *)
(** ** assertions.js, with what can go wrong *)
(* ===================================================================== *)

(** The operations of [Assertions] give the result an operation reports.
    Before it reports, an operation builds its texts, and a template
    literal or a [join] that meets a raw value without conversion to a
    string raises: the operation then ends there, before [pushResult].
    Here each operation is written with those conversions, in the order
    the source evaluates them. *)
Module Effects.
Import Str JS Utils Assertions.

(** [format(v)] inside a template literal, with its conversion. *)
Definition fmt (v : JSValue) : Completion string := template (format v false).

Section Checks.
Context {M : Sinon.Matching}.

Notation "'$' s" := (Sinon.Spy_toString s) (at level 9, only parsing).

Definition calledWith (args : list JSValue) (message : option string)
    (this : Bound) : Completion Bound :=
  let spy := spy this in
  actualState <-
    (if (Sinon.callCount spy =? 0)%nat
     then Normal "not called at all"
     else listed <- Array_join (str nl) (formatItems (Sinon.args spy) false) ;;
          Normal ("called with: " ++ listed)) ;;
  expected_args <- fmt (VArray args) ;;
  error_args <- fmt (VArray args) ;;
  Normal (pushResult this
    {| message := message;
       result := Sinon.calledWith spy args;
       expected := $spy ++ " was called with: " ++ expected_args;
       actual := $spy ++ " was " ++ actualState;
       error := "Expected " ++ $spy ++ " to be called with: " ++ error_args
                ++ ", but it was " ++ actualState ++ "." |}).

Definition calledWithExactly (args : list JSValue) (message : option string)
    (this : Bound) : Completion Bound :=
  let spy := spy this in
  actualState <-
    (if (Sinon.callCount spy =? 0)%nat
     then Normal "not called at all"
     else listed <- Array_join (str nl) (formatItems (Sinon.args spy) false) ;;
          Normal ("called with: " ++ listed)) ;;
  expected_args <- fmt (VArray args) ;;
  error_args <- fmt (VArray args) ;;
  Normal (pushResult this
    {| message := message;
       result := Sinon.calledWithExactly spy args;
       expected := $spy ++ " was called with: " ++ expected_args;
       actual := $spy ++ " was " ++ actualState;
       error := "Expected " ++ $spy ++ " to be called with exactly: "
                ++ error_args ++ ", but it was " ++ actualState ++ "." |}).

Definition notCalledWith (args : list JSValue) (message : option string)
    (this : Bound) : Completion Bound :=
  let spy := spy this in
  expected_args <- fmt (VArray args) ;;
  actual_args <- fmt (VArray args) ;;
  error_args <- fmt (VArray args) ;;
  Normal (pushResult this
    {| message := message;
       result := negb (Sinon.calledWith spy args);
       expected := $spy ++ " was never called with: " ++ expected_args;
       actual := $spy ++ " was called with: " ++ actual_args;
       error := "Expected " ++ $spy ++ " to never be called with: "
                ++ error_args ++ ", but it was." |}).

Definition notCalledWithExactly (args : list JSValue) (message : option string)
    (this : Bound) : Completion Bound :=
  let spy := spy this in
  expected_args <- fmt (VArray args) ;;
  actual_args <- fmt (VArray args) ;;
  error_args <- fmt (VArray args) ;;
  Normal (pushResult this
    {| message := message;
       result := negb (Sinon.calledWithExactly spy args);
       expected := $spy ++ " was never called with: " ++ expected_args;
       actual := $spy ++ " was called with: " ++ actual_args;
       error := "Expected " ++ $spy ++ " to never be called with exactly: "
                ++ error_args ++ ", but it was." |}).

Definition returnedWith (value : JSValue) (message : option string)
    (this : Bound) : Completion Bound :=
  let spy := spy this in
  expected_value <- fmt value ;;
  listed <- Array_join (str nl) (formatItems (Sinon.returnValues spy) false) ;;
  error_value <- fmt value ;;
  Normal (pushResult this
    {| message := message;
       result := Sinon.returned spy value;
       expected := $spy ++ " returned " ++ expected_value;
       actual := $spy ++ " returned " ++ listed;
       error := "Expected " ++ $spy ++ " to return " ++ error_value
                ++ " at least once, but it did not." |}).

Definition didNotReturnWith (value : JSValue) (message : option string)
    (this : Bound) : Completion Bound :=
  let spy := spy this in
  expected_value <- fmt value ;;
  actual_value <- fmt value ;;
  error_value <- fmt value ;;
  Normal (pushResult this
    {| message := message;
       result := negb (Sinon.returned spy value);
       expected := $spy ++ " did not return " ++ expected_value;
       actual := $spy ++ " returned " ++ actual_value;
       error := "Expected " ++ $spy ++ " to never return " ++ error_value
                ++ ", but it did." |}).

Definition threwWith (exception : JSValue) (message : option string)
    (this : Bound) : Completion Bound :=
  let spy := spy this in
  expected_value <- fmt exception ;;
  actual_value <- fmt exception ;;
  error_value <- fmt exception ;;
  Normal (pushResult this
    {| message := message;
       result := Sinon.threw spy exception;
       expected := $spy ++ " threw with " ++ expected_value;
       actual := $spy ++ " did not throw with " ++ actual_value;
       error := "Expected " ++ $spy ++ " to throw with " ++ error_value
                ++ ", but it did not." |}).

Definition lastCalledWith (args : list JSValue) (message : option string)
    (this : Bound) : Completion Bound :=
  let spy := spy this in
  let lastCall := Sinon.getCall spy (-1) in
  actualState <-
    match lastCall with
    | Some c => last_args <- fmt (VArray (Sinon.call_args c)) ;;
                Normal ("last called with: " ++ last_args)
    | None => Normal "not called at all"
    end ;;
  expected_args <- fmt (VArray args) ;;
  error_args <- fmt (VArray args) ;;
  Normal (pushResult this
    {| message := message;
       result := match lastCall with
                 | Some c => Sinon.call_calledWith c args
                 | None => false
                 end;
       expected := $spy ++ " was last called with: " ++ expected_args;
       actual := $spy ++ " was " ++ actualState;
       error := "Expected " ++ $spy ++ " to be last called with: "
                ++ error_args ++ ", but it was " ++ actualState ++ "." |}).

Definition lastCalledWithExactly (args : list JSValue) (message : option string)
    (this : Bound) : Completion Bound :=
  let spy := spy this in
  let lastCall := Sinon.getCall spy (-1) in
  actualState <-
    match lastCall with
    | Some c => last_args <- fmt (VArray (Sinon.call_args c)) ;;
                Normal ("last called with: " ++ last_args)
    | None => Normal "not called at all"
    end ;;
  expected_args <- fmt (VArray args) ;;
  error_args <- fmt (VArray args) ;;
  Normal (pushResult this
    {| message := message;
       result := match lastCall with
                 | Some c => Sinon.call_calledWithExactly c args
                 | None => false
                 end;
       expected := $spy ++ " was last called with: " ++ expected_args;
       actual := $spy ++ " was " ++ actualState;
       error := "Expected " ++ $spy ++ " to be last called with exactly: "
                ++ error_args ++ ", but it was " ++ actualState ++ "." |}).

Definition lastReturnedWith (value : JSValue) (message : option string)
    (this : Bound) : Completion Bound :=
  let spy := spy this in
  let lastCall := Sinon.getCall spy (-1) in
  actualState <-
    match lastCall with
    | Some c => last_value <- fmt (Sinon.returnValue c) ;;
                Normal ($spy ++ " last call returned " ++ last_value)
    | None => Normal ($spy ++ " was not called at all")
    end ;;
  expected_value <- fmt value ;;
  error_value <- fmt value ;;
  Normal (pushResult this
    {| message := message;
       result := match lastCall with
                 | Some c => Sinon.call_returned c value
                 | None => false
                 end;
       expected := $spy ++ " last call returned " ++ expected_value;
       actual := actualState;
       error := "Expected " ++ $spy ++ " last call to return " ++ error_value
                ++ ", but " ++ actualState ++ "." |}).

Definition lastNotCalledWith (args : list JSValue) (message : option string)
    (this : Bound) : Completion Bound :=
  let spy := spy this in
  let lastCall := Sinon.getCall spy (-1) in
  actualState <-
    match lastCall with
    | Some c => last_args <- fmt (VArray (Sinon.call_args c)) ;;
                Normal ("last called with: " ++ last_args)
    | None => Normal "not called at all"
    end ;;
  expected_args <- fmt (VArray args) ;;
  error_args <- fmt (VArray args) ;;
  Normal (pushResult this
    {| message := message;
       result := match lastCall with
                 | Some c => negb (Sinon.call_calledWith c args)
                 | None => false
                 end;
       expected := $spy ++ " was not last called with: " ++ expected_args;
       actual := $spy ++ " was " ++ actualState;
       error := "Expected " ++ $spy ++ " to not be last called with: "
                ++ error_args ++ ", but it was " ++ actualState ++ "." |}).

Definition lastNotCalledWithExactly (args : list JSValue) (message : option string)
    (this : Bound) : Completion Bound :=
  let spy := spy this in
  let lastCall := Sinon.getCall spy (-1) in
  actualState <-
    match lastCall with
    | Some c => last_args <- fmt (VArray (Sinon.call_args c)) ;;
                Normal ("last called with: " ++ last_args)
    | None => Normal "not called at all"
    end ;;
  expected_args <- fmt (VArray args) ;;
  error_args <- fmt (VArray args) ;;
  Normal (pushResult this
    {| message := message;
       result := match lastCall with
                 | Some c => negb (Sinon.call_calledWithExactly c args)
                 | None => false
                 end;
       expected := $spy ++ " was not last called with: " ++ expected_args;
       actual := $spy ++ " was " ++ actualState;
       error := "Expected " ++ $spy ++ " to not be last called with exactly: "
                ++ error_args ++ ", but it was." |}).

Definition lastDidNotReturnWith (value : JSValue) (message : option string)
    (this : Bound) : Completion Bound :=
  let spy := spy this in
  let lastCall := Sinon.getCall spy (-1) in
  actualState <-
    match lastCall with
    | Some c => last_value <- fmt (Sinon.returnValue c) ;;
                Normal ($spy ++ " last call returned " ++ last_value)
    | None => Normal ($spy ++ " was not called at all")
    end ;;
  expected_value <- fmt value ;;
  error_value <- fmt value ;;
  Normal (pushResult this
    {| message := message;
       result := match lastCall with
                 | Some c => negb (Sinon.call_returned c value)
                 | None => false
                 end;
       expected := $spy ++ " last call did not return " ++ expected_value;
       actual := actualState;
       error := "Expected " ++ $spy ++ " last call not to return " ++ error_value
                ++ ", but it did." |}).

(** One operation of a chain. The templates of [called], [calledTimes]
    (and the three operations that are [calledTimes]) and [threw] hold
    nothing but the spy and numbers, and convert no value. *)
Definition invoke (c : Call) (this : Bound) : Completion Bound :=
  match c with
  | Called m => Normal (Assertions.called m this)
  | CalledTimes n m => Normal (Assertions.calledTimes n m this)
  | CalledOnce m => Normal (Assertions.calledOnce m this)
  | CalledTwice m => Normal (Assertions.calledTwice m this)
  | NotCalled m => Normal (Assertions.notCalled m this)
  | CalledWith a m => calledWith a m this
  | CalledWithExactly a m => calledWithExactly a m this
  | NotCalledWith a m => notCalledWith a m this
  | NotCalledWithExactly a m => notCalledWithExactly a m this
  | ReturnedWith v m => returnedWith v m this
  | DidNotReturnWith v m => didNotReturnWith v m this
  | Threw m => Normal (Assertions.threw m this)
  | ThrewWith e m => threwWith e m this
  | LastCalledWith a m => lastCalledWith a m this
  | LastCalledWithExactly a m => lastCalledWithExactly a m this
  | LastReturnedWith v m => lastReturnedWith v m this
  | LastNotCalledWith a m => lastNotCalledWith a m this
  | LastNotCalledWithExactly a m => lastNotCalledWithExactly a m this
  | LastDidNotReturnWith v m => lastDidNotReturnWith v m this
  end.

(** A chain: each operation is invoked on what the one before returned;
    the first that raises ends the chain there. What comes back is the
    instance as the chain left it, with the results recorded until then,
    and the error if there was one. *)
Fixpoint chain (cs : list Call) (this : Bound) : Bound * option JSError :=
  match cs with
  | [] => (this, None)
  | c :: rest =>
      match invoke c this with
      | Normal after => chain rest after
      | Throw e => (this, Some e)
      end
  end.


End Checks.
End Effects.

(* ===================================================================== *)
(** ** index.js of the test support *)
(* ===================================================================== *)

Module TestSupport.
Import Str JS.

(** The template of the message converts [spy] to a string before the
    error is made, and that conversion may raise in its place. *)
Definition failValidation {A : Type} (spy : JSValue) : Completion A :=
  text <- ToString spy ;;
  Throw (Error ("qunit-sinon-assertions: " ++ text ++ " is not a spy")).

(** [spy.proxy && spy.proxy.isSinonProxy], as a condition. *)
Definition hasSinonProxy (spy : JSValue) : bool :=
  ToBoolean (Get spy "proxy") && ToBoolean (Get (Get spy "proxy") "isSinonProxy").

(** A condition together with the fact that it had that value. *)
Definition inspect {A : Type} (a : A) : {b : A | a = b} := exist _ a eq_refl.

Equations? validateSpy (spy : JSValue) : Completion unit by wf (size spy) lt :=
validateSpy spy with ToBoolean spy := {
  | false => failValidation spy
  | true with inspect (hasSinonProxy spy) := {
    | exist _ true wrapped => validateSpy (Get spy "proxy")
    | exist _ false _ =>
        if negb (typeof spy =? "function")
           || negb (typeof (Get spy "getCall") =? "function")
        then failValidation spy
        else Normal tt } }.
Proof.
  assert (bound : forall props,
    ToBoolean (lookup "proxy" props) = true ->
    size (lookup "proxy" props) <= list_sum (map (fun p => size (snd p)) props)).
  { induction props as [| [k v] rest IH]; simpl.
    - discriminate.
    - destruct (k =? "proxy"); intro T.
      + lia.
      + specialize (IH T). lia. }
  unfold hasSinonProxy in wrapped.
  apply andb_true_iff in wrapped. destruct wrapped as [T _].
  destruct spy; simpl in *; try discriminate; apply bound in T; lia.
Qed.

(** [Unwraps spy inner]: [inner] is reached from [spy] by following
    [proxy] as long as [validateSpy] does. *)
Inductive Unwraps : JSValue -> JSValue -> Prop :=
| Unwraps_here (spy : JSValue) : Unwraps spy spy
| Unwraps_proxy (spy inner : JSValue) :
    hasSinonProxy spy = true -> Unwraps (Get spy "proxy") inner -> Unwraps spy inner.

(** No [proxy] that [validateSpy] follows from [spy] leads back to an
    object it came through: the chain of proxies ends. *)
Definition proxies_end (spy : JSValue) : Prop :=
  forall v, Unwraps spy v -> is_back_reference (Get v "proxy") = false.

(** [QUnit.assert.spy]: [this] is the test context the factory is called
    on. *)
Definition assert_spy (spy : JSValue) (this : Assertions.TestContext) :
    Completion (Assertions.SinonAssertions JSValue) :=
  match validateSpy spy with
  | Throw e => Throw e
  | Normal _ => Normal (Assertions.mkSinonAssertions spy this)
  end.

End TestSupport.
(* ===================================================================== *)
(** ** Properties *)
(* ===================================================================== *)

Import Str JS Utils.

(** *** Characters of a replaced text *)

Lemma append_assoc (a b c : string) : (a ++ b) ++ c = a ++ b ++ c.
Proof.
  induction a as [| x a IH]; simpl.
  - reflexivity.
  - rewrite IH. reflexivity.
Qed.

Lemma has_char_app (c : ascii) (a b : string) :
  has_char c (a ++ b) = has_char c a || has_char c b.
Proof.
  induction a as [| d a IH]; simpl.
  - reflexivity.
  - rewrite IH. apply orb_assoc.
Qed.

Lemma prefix_empty (s : string) : prefix EmptyString s = true.
Proof. destruct s; reflexivity. Qed.

Lemma includes_char (c : ascii) (s : string) :
  includes s (str c) = has_char c s.
Proof.
  induction s as [| d s IH].
  - reflexivity.
  - cbn [includes has_char prefix str]. rewrite IH.
    destruct (ascii_dec c d) as [E | N].
    + subst d. rewrite Ascii.eqb_refl, prefix_empty. reflexivity.
    + apply Ascii.eqb_neq in N. rewrite N. reflexivity.
Qed.

(** A replacement brings in no character that is in neither the text nor
    the replacement. *)
Lemma replace_loop_keeps_out (c : ascii) (pat rep : string) :
  has_char c rep = false ->
  forall (s : string) (skip : nat),
    has_char c s = false -> has_char c (replace_loop pat rep skip s) = false.
Proof.
  intros Hrep s. induction s as [| d s IH]; intros skip Hs.
  - reflexivity.
  - simpl in Hs. apply orb_false_iff in Hs. destruct Hs as [Hd Hs].
    cbn [replace_loop]. destruct skip as [| k].
    + destruct (prefix pat (String d s)).
      * rewrite has_char_app, Hrep. simpl. apply IH. exact Hs.
      * simpl. rewrite Hd. simpl. apply IH. exact Hs.
    + apply IH. exact Hs.
Qed.

Lemma replaceAll_keeps_out (c : ascii) (pat rep s : string) :
  has_char c rep = false -> has_char c s = false ->
  has_char c (replaceAll pat rep s) = false.
Proof.
  intros Hrep Hs. unfold replaceAll. apply replace_loop_keeps_out; assumption.
Qed.

(** A pattern that does not occur is not replaced. *)
Lemma replaceAll_absent (pat rep s : string) :
  includes s pat = false -> replaceAll pat rep s = s.
Proof.
  unfold replaceAll. induction s as [| c s IH]; intro H.
  - reflexivity.
  - cbn [includes] in H. apply orb_false_iff in H. destruct H as [P I].
    cbn [replace_loop]. rewrite P, (IH I). reflexivity.
Qed.

(** Replacing a single character leaves none of it behind. *)
Lemma replace_char_removes (c : ascii) (rep s : string) :
  has_char c rep = false ->
  has_char c (replaceAll (str c) rep s) = false.
Proof.
  intro Hrep. unfold replaceAll.
  induction s as [| d s IH].
  - reflexivity.
  - cbn [replace_loop str prefix String.length Nat.sub].
    destruct (ascii_dec c d) as [E | N].
    + subst d. rewrite prefix_empty, has_char_app, Hrep. simpl. exact IH.
    + apply Ascii.eqb_neq in N. simpl. rewrite N. simpl. exact IH.
Qed.

(** Replacing one character by another is a change in place. *)
Lemma replace_char_in_place (c d : ascii) (s : string) :
  replaceAll (str c) (str d) s = map_chars (fun x => if Ascii.eqb x c then d else x) s.
Proof.
  unfold replaceAll. induction s as [| x s IH].
  - reflexivity.
  - cbn [replace_loop str prefix String.length Nat.sub map_chars].
    rewrite <- IH. rewrite (Ascii.eqb_sym x c).
    destruct (ascii_dec c x) as [E | N].
    + subst x. rewrite prefix_empty, Ascii.eqb_refl. reflexivity.
    + apply Ascii.eqb_neq in N. rewrite N. reflexivity.
Qed.

Lemma single_quotes_no_dq (s : string) : has_char dq (single_quotes s) = false.
Proof.
  unfold single_quotes. apply replace_char_removes. reflexivity.
Qed.

(** The encoding of a text holds no line feed: [QuoteJSONString] escapes
    it. *)
Lemma quote_char_no_nl (c : ascii) : has_char nl (quote_char c) = false.
Proof.
  destruct c as [[] [] [] [] [] [] [] []]; reflexivity.
Qed.

Lemma quote_body_no_nl (s : string) : has_char nl (quote_body s) = false.
Proof.
  induction s as [| c s IH]; simpl.
  - reflexivity.
  - rewrite has_char_app, quote_char_no_nl, IH. reflexivity.
Qed.

Lemma QuoteJSONString_no_nl (s : string) : has_char nl (QuoteJSONString s) = false.
Proof.
  unfold QuoteJSONString. cbn [has_char].
  rewrite has_char_app, quote_body_no_nl. reflexivity.
Qed.

(** *** The formatter *)

(** The replacer hands a text back as it is, and the top-level property is
    serialised as the quoted text. *)
Lemma stringify_text (s : string) (space : nat) :
  JSON_stringify (VString s) replacer space = Normal (Some (QuoteJSONString s)).
Proof. reflexivity. Qed.

(** The rendering of a text: the three replacements over its encoding,
    between one pair of backticks. *)
Lemma format_text (s : string) (isIndented : bool) :
  format (VString s) isIndented =
  Text ("`" ++ single_quotes (unescape_quotes (unquote_undefined (QuoteJSONString s)))
        ++ "`").
Proof.
  unfold format. rewrite stringify_text.
  set (body := single_quotes _).
  assert (Hnl : includes body (str nl) = false).
  { rewrite includes_char. unfold body, single_quotes, unescape_quotes, unquote_undefined.
    repeat (apply replaceAll_keeps_out; [reflexivity |]).
    apply QuoteJSONString_no_nl. }
  rewrite Hnl. reflexivity.
Qed.

(** C1, as the code has it: whether indented or not, [format(undefined)]
    is the text [undefined] without quotation marks, on one line and
    between the pair of backticks that every rendered value gets. *)
Theorem format_undefined (isIndented : bool) :
  format VUndefined isIndented = Text "`undefined`".
Proof. destruct isIndented; reflexivity. Qed.

(** C1, as stated, fails: [format(undefined)] is not the bare text
    [undefined]; the backticks are part of what is returned. *)
Lemma format_undefined_is_wrapped :
  format VUndefined false <> Text "undefined".
Proof. discriminate. Qed.

(** C6: [format] always returns, either a text or the value it was given;
    and whenever the structural encoding raises, whatever the error, it
    returns the value it was given. *)
Theorem format_fails_soft (value : JSValue) (isIndented : bool) :
  ((exists t, format value isIndented = Text t) \/ format value isIndented = Raw value)
  /\ (forall e,
        JSON_stringify value replacer (if isIndented then 2 else 0) = Throw e ->
        format value isIndented = Raw value).
Proof.
  unfold format. split.
  - destruct (JSON_stringify value replacer (if isIndented then 2 else 0))
      as [[json |] | e].
    + left. eexists. reflexivity.
    + right. reflexivity.
    + right. reflexivity.
  - intros e H. rewrite H. reflexivity.
Qed.

(** An array that holds itself: the encoding raises, and [format] hands
    the array back. *)
Lemma format_fails_soft_witness :
  JSON_stringify (VArray [VCycle true]) replacer 0
    = Throw (TypeError "Converting circular structure to JSON")
  /\ format (VArray [VCycle true]) false = Raw (VArray [VCycle true]).
Proof.
  split.
  - reflexivity.
  - exact (proj2 (format_fails_soft (VArray [VCycle true]) false)
             (TypeError "Converting circular structure to JSON") eq_refl).
Defined.

(** C8, as the code has it: for a text that holds a double quotation
    mark, [format] returns a token without any double quotation mark. The
    quoted mark of undefined is replaced first; in what that leaves of the
    encoding, every backslash-quote pair is replaced by a single quotation
    mark and then every double quotation mark is changed, in place, into a
    single one. For a text whose encoding does not hold the quoted mark
    of undefined, this is every double quotation mark of the encoding,
    the escaped ones included. *)
Theorem format_text_has_no_double_quote (s : string) (isIndented : bool) :
  has_char dq s = true ->
  exists token,
    format (VString s) isIndented = Text token
    /\ has_char dq token = false
    /\ token = "`" ++ map_chars (fun c => if Ascii.eqb c dq then sq else c)
                        (replaceAll (String bs (str dq)) (str sq)
                           (unquote_undefined (QuoteJSONString s)))
               ++ "`"
    /\ (includes (QuoteJSONString s) (String dq (undefined_mark ++ str dq)) = false ->
        token = "`" ++ map_chars (fun c => if Ascii.eqb c dq then sq else c)
                            (replaceAll (String bs (str dq)) (str sq)
                               (QuoteJSONString s))
                   ++ "`").
Proof.
  intros _. eexists. split; [apply format_text |]. split; [| split].
  - cbn [append has_char]. rewrite has_char_app, single_quotes_no_dq. reflexivity.
  - unfold single_quotes, unescape_quotes. rewrite replace_char_in_place. reflexivity.
  - intro A. unfold single_quotes, unescape_quotes, unquote_undefined.
    rewrite replace_char_in_place, (replaceAll_absent _ _ _ A). reflexivity.
Qed.

Lemma format_text_has_no_double_quote_witness :
  has_char dq ("say " ++ str dq ++ "hi" ++ str dq) = true
  /\ exists token,
       format (VString ("say " ++ str dq ++ "hi" ++ str dq)) false = Text token
       /\ has_char dq token = false
       /\ token = "`'say 'hi''`".
Proof.
  split; [reflexivity |].
  destruct (format_text_has_no_double_quote ("say " ++ str dq ++ "hi" ++ str dq) false
              eq_refl) as [token [F [Q [_ E]]]].
  exists token. repeat split; [exact F | exact Q | exact (E eq_refl)].
Defined.

(** C8, as stated, fails: the text made of a double quotation mark and the
    mark of undefined is encoded with the mark between an escaped and a
    closing quotation mark; the first replacement takes both away with
    the mark, so that they are not replaced by single ones, and a lone
    backslash stays. *)
Lemma format_text_swallows_quote :
  has_char dq (String dq undefined_mark) = true
  /\ format (VString (String dq undefined_mark)) false
     = Text ("`'" ++ String bs "undefined`")
  /\ format (VString (String dq undefined_mark)) false
     <> Text ("`" ++ map_chars (fun c => if Ascii.eqb c dq then sq else c)
                       (replaceAll (String bs (str dq)) (str sq)
                          (QuoteJSONString (String dq undefined_mark)))
              ++ "`").
Proof.
  split; [reflexivity |]. split; [reflexivity |]. vm_compute. discriminate.
Qed.

(** *** The assertion set *)

Import Assertions.

(** C4: the message that reaches the test context. With a true result it is
    the message of the caller when one is given (the empty string counts
    as none), else the expected text; with a false result it is the
    message of the caller and a line feed, when one is given, followed by
    the failure explanation. *)
Theorem pushResult_message (S : Type) (this : SinonAssertions S) (o : Outcome) :
  exists r,
    pushResult this o = mkSinonAssertions (spy this) (testContext this ++ [r])%list
    /\ pushed_result r = result o
    /\ pushed_expected r = expected o
    /\ pushed_actual r = actual o
    /\ (result o = true ->
        (forall m, message o = Some m -> m <> EmptyString -> pushed_message r = m)
        /\ (message o = None \/ message o = Some EmptyString ->
            pushed_message r = expected o))
    /\ (result o = false ->
        (forall m, message o = Some m -> m <> EmptyString ->
                   pushed_message r = m ++ str nl ++ error o)
        /\ (message o = None \/ message o = Some EmptyString ->
            pushed_message r = error o)).
Proof.
  unfold pushResult, QUnit_pushResult. eexists. split; [reflexivity |].
  cbn [pushed_result pushed_expected pushed_actual pushed_message].
  repeat split; try reflexivity.
  - intros m Hm Hne. rewrite H, Hm. simpl.
    destruct (String.eqb_spec m EmptyString) as [E | _]; [contradiction | reflexivity].
  - intros [Hm | Hm]; rewrite H, Hm; reflexivity.
  - intros m Hm Hne. rewrite H, Hm. simpl.
    destruct (String.eqb_spec m EmptyString) as [E | _]; [contradiction |].
    apply append_assoc.
  - intros [Hm | Hm]; rewrite H, Hm; reflexivity.
Qed.

Lemma pushResult_message_witness :
  exists r,
    pushResult (mkSinonAssertions tt [])
      {| message := Some "should pass"; result := false; expected := "e";
         actual := "a"; error := "Expected more." |}
    = mkSinonAssertions tt [r]
    /\ pushed_message r = "should pass" ++ str nl ++ "Expected more.".
Proof.
  destruct (pushResult_message unit (mkSinonAssertions tt [])
              {| message := Some "should pass"; result := false; expected := "e";
                 actual := "a"; error := "Expected more." |})
    as [r [E [_ [_ [_ [_ F]]]]]].
  exists r. split.
  - exact E.
  - apply (proj1 (F eq_refl) "should pass"); [reflexivity | discriminate].
Defined.


(** C5: [calledTimes(n)] reports a pass exactly when the call count is [n];
    [calledOnce], [calledTwice] and [notCalled] are [calledTimes] at 1, 2
    and 0 with the same message. *)
Theorem calledTimes_exact (n : Z) (message : option string) (this : Bound) :
  (exists verdict,
      reported this (calledTimes n message this) verdict
      /\ (verdict = true <-> Z.of_nat (Sinon.callCount (spy this)) = n))
  /\ calledOnce message this = calledTimes 1 message this
  /\ calledTwice message this = calledTimes 2 message this
  /\ notCalled message this = calledTimes 0 message this.
Proof.
  split; [| repeat split].
  exists (Z.of_nat (Sinon.callCount (spy this)) =? n)%Z. split.
  - unfold reported, calledTimes, pushResult, QUnit_pushResult.
    eexists. split; reflexivity.
  - apply Z.eqb_eq.
Qed.



(** *** The actual text of the checks over all calls *)

Lemma format_raw_is_input (value v : JSValue) (isIndented : bool) :
  format value isIndented = Raw v -> v = value.
Proof.
  unfold format.
  destruct (JSON_stringify value replacer (if isIndented then 2 else 0))
    as [[json |] | e]; intro H; inversion H; reflexivity.
Qed.

(** Joining formatted items is joining their texts: [format] never hands
    back a raw undefined or null, the two values [join] would drop. *)
Lemma join_items_formatItems (sep : string) (values : list JSValue) :
  join_items sep (formatItems values false) = join sep (map fmt values).
Proof.
  unfold join_items, formatItems, fmt. rewrite map_map. f_equal.
  apply map_ext. intro v.
  destruct (format v false) as [t | raw] eqn:F; [reflexivity |].
  apply format_raw_is_input in F as E. subst raw.
  destruct v; try reflexivity; discriminate F.
Qed.




(** On a spy that was never called, [returnedWith] has nothing to list. *)
Remark returnedWith_actual_without_calls (M : Sinon.Matching)
    (value : JSValue) (message : option string) (spy_name : string) :
  map pushed_actual
    (reports (ReturnedWith value message) {| Sinon.name := spy_name; Sinon.calls := [] |})
  = [spy_name ++ " returned "].
Proof. reflexivity. Qed.

(** *** Chaining *)




(** *** The factory *)

Import TestSupport.

(** [validateSpy], as its source reads. *)
Lemma validateSpy_unfold (spy : JSValue) :
  validateSpy spy =
  if ToBoolean spy
  then if hasSinonProxy spy
       then validateSpy (Get spy "proxy")
       else if negb (typeof spy =? "function")
               || negb (typeof (Get spy "getCall") =? "function")
            then failValidation spy
            else Normal tt
  else failValidation spy.
Proof.
  rewrite validateSpy_equation_1 at 1.
  destruct (ToBoolean spy); simpl; [| reflexivity].
  destruct (hasSinonProxy spy); reflexivity.
Qed.

(** Only a function or an object has a proxy to offer, and both count as
    true. *)
Lemma wrapped_is_truthy (spy : JSValue) :
  hasSinonProxy spy = true -> ToBoolean spy = true.
Proof.
  unfold hasSinonProxy. intro H. apply andb_true_iff in H. destruct H as [H _].
  destruct spy; simpl in *; try discriminate; reflexivity.
Qed.

Lemma falsy_is_no_function (spy : JSValue) :
  ToBoolean spy = false -> typeof spy <> "function".
Proof. destruct spy; simpl; intros H; discriminate. Qed.

Lemma failValidation_raises (A : Type) (spy : JSValue) :
  raises (@failValidation A spy) = true.
Proof. unfold failValidation. destruct (ToString spy); reflexivity. Qed.

Lemma assert_spy_raises_as_validateSpy (spy : JSValue) (this : TestContext) :
  raises (assert_spy spy this) = raises (validateSpy spy).
Proof. unfold assert_spy. destruct (validateSpy spy); reflexivity. Qed.

(** C7: the factory raises, and leaves the test context alone, exactly
    when the value it is given is no function or has no [getCall]
    function; for a value that wraps a Sinon proxy the same checks are
    made on the proxy instead, and the factory raises exactly when the
    proxy does not pass them. When it does not raise, it returns an
    instance bound to the value and to the test context as they are. *)
Theorem assert_spy_raises (spy : JSValue) (this : TestContext) :
  (hasSinonProxy spy = false ->
   (raises (assert_spy spy this) = true <->
    typeof spy <> "function" \/ typeof (Get spy "getCall") <> "function"))
  /\ (hasSinonProxy spy = true ->
      raises (assert_spy spy this) = raises (assert_spy (Get spy "proxy") this))
  /\ (raises (assert_spy spy this) = false ->
      assert_spy spy this = Normal (mkSinonAssertions spy this)).
Proof.
  repeat split.
  - rewrite assert_spy_raises_as_validateSpy, validateSpy_unfold, H.
    destruct (ToBoolean spy) eqn:T.
    + destruct (String.eqb_spec (typeof spy) "function") as [F | F];
        destruct (String.eqb_spec (typeof (Get spy "getCall")) "function") as [G | G];
        cbn [negb orb raises]; intro R; try discriminate R; auto.
    + intros _. left. apply falsy_is_no_function. exact T.
  - rewrite assert_spy_raises_as_validateSpy, validateSpy_unfold, H.
    destruct (ToBoolean spy) eqn:T; [| intros _; apply failValidation_raises].
    destruct (String.eqb_spec (typeof spy) "function") as [F | F];
      destruct (String.eqb_spec (typeof (Get spy "getCall")) "function") as [G | G];
      cbn [negb orb]; intros [N | N]; try contradiction;
      apply failValidation_raises.
  - intro W. rewrite !assert_spy_raises_as_validateSpy.
    rewrite (validateSpy_unfold spy), W, (wrapped_is_truthy spy W). reflexivity.
  - unfold assert_spy. destruct (validateSpy spy) as [[] | e]; simpl.
    + reflexivity.
    + discriminate.
Qed.

(** A function without [getCall], and a plain object that wraps a spy. *)
Lemma assert_spy_raises_witness :
  raises (assert_spy (VFunction "f" []) []) = true
  /\ raises (assert_spy
               (plain [("proxy", VFunction "spy"
                                   [("isSinonProxy", VBool true);
                                    ("getCall", VFunction "getCall" [])])]) [])
     = false.
Proof.
  split.
  - apply (proj1 (assert_spy_raises (VFunction "f" []) []) eq_refl).
    right. discriminate.
  - rewrite (proj1 (proj2 (assert_spy_raises
               (plain [("proxy", VFunction "spy"
                                   [("isSinonProxy", VBool true);
                                    ("getCall", VFunction "getCall" [])])]) []))
               eq_refl).
    reflexivity.
Defined.

(** *** What the encoding can raise *)

(** What the replacer hands back, when it hands something back: the value
    itself, if JSON has a form for it, or a text. *)
Definition encodable (value : JSValue) : bool :=
  match value with
  | VUndefined | VFunction _ _ | VSymbol _ | VNullProto _ => false
  | _ => true
  end.

Lemma replacer_returns (key : string) (value r : JSValue) :
  replacer key value = Normal r ->
  encodable r = true /\ (r = value \/ exists s, r = VString s).
Proof.
  unfold replacer.
  destruct value as [| | b | n | s | source props | items | tag text props | c
                     | description | props];
    try destruct c;
    try (intro H; vm_compute in H; injection H as H; subst r; split;
         [reflexivity | solve [left; reflexivity | right; eexists; reflexivity]]);
    try (intro H; vm_compute in H; discriminate H).
  cbn [ToString bind typeof String.eqb].
  destruct (typeOf (VObject tag text props) =? "object").
  - cbn [bind]. destruct (text =? "[object Object]").
    + destruct (negb _); intro H; injection H as H; subst r; split;
        solve [reflexivity | left; reflexivity | right; eexists; reflexivity].
    + intro H. injection H as H. subst r. split; [reflexivity |].
      right. eexists. reflexivity.
  - cbn [bind]. destruct (negb _); intro H; injection H as H; subst r; split;
      solve [reflexivity | left; reflexivity | right; eexists; reflexivity].
Qed.

Lemma replacer_raises (key : string) (value : JSValue) (e : JSError) :
  replacer key value = Throw e -> exists msg, e = TypeError msg.
Proof.
  unfold replacer.
  destruct value as [| | b | n | s | source props | items | tag text props | c
                     | description | props];
    try destruct c;
    try (intro H; vm_compute in H; discriminate H);
    try (intro H; vm_compute in H; injection H as H; subst e; eexists; reflexivity).
  cbn [ToString bind typeof String.eqb].
  destruct (typeOf (VObject tag text props) =? "object"); cbn [bind];
    repeat match goal with
           | |- context [if ?b then _ else _] => destruct b
           end; discriminate.
Qed.

(** The replacer never hands back undefined, a function or a symbol, so
    the encoding of a value is never undefined. *)
Lemma stringify_defined (value : JSValue) (space : nat) :
  JSON_stringify value replacer space <> Normal None.
Proof.
  unfold JSON_stringify. cbn [SerializeJSONProperty].
  destruct (replacer EmptyString value) as [r | e] eqn:R; [| discriminate].
  apply replacer_returns in R. destruct R as [E _]. cbn [bind].
  destruct r as [| | b | n | s | source props | items | tag text props | c
                 | description | props];
    try discriminate E; try discriminate;
    try (destruct b; discriminate);
    try (destruct n; discriminate);
    destruct (collect _); discriminate.
Qed.

Lemma depth_of_member (x : JSValue) (items : list JSValue) :
  In x items -> depth x <= list_max (map depth items).
Proof.
  induction items as [| y items IH]; simpl.
  - intros [].
  - intros [E | I].
    + subst. lia.
    + specialize (IH I). lia.
Qed.

Lemma depth_of_property (kv : string * JSValue) (props : list (string * JSValue)) :
  In kv props -> depth (snd kv) <= list_max (map (fun p => depth (snd p)) props).
Proof.
  induction props as [| y props IH]; simpl.
  - intros [].
  - intros [E | I].
    + subst. lia.
    + specialize (IH I). lia.
Qed.

Lemma collect_throws {A : Type} (steps : list (Completion A)) (e : JSError) :
  collect steps = Throw e -> In (Throw e) steps.
Proof.
  induction steps as [| [a | e'] steps IH]; simpl.
  - discriminate.
  - destruct (collect steps); [discriminate |].
    intro H. right. apply IH. exact H.
  - intro H. left. injection H as H. subst e'. reflexivity.
Qed.

(** With the replacer of the package, the encoding of a value never needs
    more nested calls than the value is deep, and what it raises is a type
    error: that of a cycle, or that of a conversion inside the replacer. *)
Lemma serialize_raises_TypeError (gap : string) (fuel : nat) :
  forall (indent key : string) (value : JSValue) (e : JSError),
    depth value < fuel ->
    SerializeJSONProperty replacer gap fuel indent key value = Throw e ->
    exists msg, e = TypeError msg.
Proof.
  induction fuel as [| fuel IH]; intros indent key value e D; [lia |].
  cbn [SerializeJSONProperty].
  destruct (replacer key value) as [r | e'] eqn:R; cbn [bind].
  - apply replacer_returns in R. destruct R as [_ [E | [s E]]]; subst r;
      [| discriminate].
    destruct value as [| | b | n | s | source props | items | tag text props | c
                       | description | props];
      try discriminate;
      try (destruct b; discriminate);
      try (destruct n; discriminate).
    + destruct (collect _) as [strs | e'] eqn:C; [discriminate |].
      intro H. injection H as H. subst e'.
      apply collect_throws in C. apply in_map_iff in C.
      destruct C as [[k v] [F I]]. revert F. apply IH.
      unfold indexed in I. apply in_combine_r in I.
      apply depth_of_member in I. simpl in *. lia.
    + destruct (collect _) as [strs | e'] eqn:C; [discriminate |].
      intro H. injection H as H. subst e'.
      apply collect_throws in C. apply in_map_iff in C.
      destruct C as [[k v] [F I]]. revert F. apply IH.
      apply depth_of_property in I. simpl in *. lia.
    + intro H. injection H as H. subst e. eexists. reflexivity.
    + destruct (collect _) as [strs | e'] eqn:C; [discriminate |].
      intro H. injection H as H. subst e'.
      apply collect_throws in C. apply in_map_iff in C.
      destruct C as [[k v] [F I]]. revert F. apply IH.
      apply depth_of_property in I. simpl in *. lia.
  - intro H. injection H as H. subst e'. apply replacer_raises in R. exact R.
Qed.

(** So what [format] recovers from, in this model, is a type error. *)
Lemma stringify_raises_TypeError (value : JSValue) (space : nat) (e : JSError) :
  JSON_stringify value replacer space = Throw e -> exists msg, e = TypeError msg.
Proof.
  unfold JSON_stringify. apply serialize_raises_TypeError. lia.
Qed.

(** *** The operations with their conversions *)




























(** *** Worked examples *)

Example typeOf_examples :
  map typeOf [VNull; VArray []; plain []; VObject "RegExp" "/a/" []; VString "a";
              VFunction "f" []; VUndefined]
  = ["null"; "array"; "object"; "regexp"; "string"; "function"; "undefined"].
Proof. reflexivity. Qed.

(** A list with a matcher, a date-like object, a function and a nested
    object whose text holds a double quotation mark. *)
Example format_compact :
  format
    (VArray [VNumber (Finite 1); VString "a"; VUndefined;
             plain [("k", VString (String dq "x")); ("f", VFunction "function f() {}" [])];
             VObject "Map" "[object Map]" [];
             VObject "Object" "match(x)" []])
    false
  = Text "`[1,'a',undefined,{'k':''x','f':'function f() {}'},'[object Map]','match(x)']`".
Proof. reflexivity. Qed.

Example format_indented :
  format (VArray [VNumber (Finite 1); plain [("k", VNull)]]) true
  = Text ("`" ++ str nl
          ++ "[" ++ str nl
          ++ "  1," ++ str nl
          ++ "  {" ++ str nl
          ++ "    'k': null" ++ str nl
          ++ "  }" ++ str nl
          ++ "]" ++ str nl ++ "`").
Proof. reflexivity. Qed.

(** A text that is the mark of undefined itself renders as undefined. *)
Example format_undefined_mark :
  format (VString undefined_mark) false = Text "`undefined`".
Proof. reflexivity. Qed.

(** The spy [f] was called once as [f('a', 'b')] and returned ['ok']. *)
Example scenario_called_once :
  let f := {| Sinon.name := "f";
              Sinon.calls := [ {| Sinon.call_args := [VString "a"; VString "b"];
                                  Sinon.returnValue := VString "ok";
                                  Sinon.exception := VUndefined |} ] |} in
  map pushed_result
    (testContext
       (chain (M := Sinon.structural)
          [CalledOnce None; CalledWith [VString "a"] None;
           CalledWithExactly [VString "a"] None;
           ReturnedWith (VString "ok") None; Threw None]
          (mkSinonAssertions f [])))
  = [true; true; false; true; false]
  /\ map pushed_actual
       (reports (M := Sinon.structural) (CalledWithExactly [VString "a"] None) f)
     = ["f was called with: `['a','b']`"]
  /\ map pushed_message
       (reports (M := Sinon.structural) (CalledWithExactly [VString "a"] (Some "exact")) f)
     = ["exact" ++ str nl
        ++ "Expected f to be called with exactly: `['a']`, but it was called with: `['a','b']`."].
Proof. repeat split. Qed.

(** The spy was never called. *)
Example scenario_never_called :
  let f := {| Sinon.name := "f"; Sinon.calls := [] |} in
  map (fun r => (pushed_result r, pushed_actual r))
    (testContext
       (chain (M := Sinon.structural)
          [NotCalled None; CalledWith [VNumber (Finite 1)] None;
           LastCalledWith [VNumber (Finite 1)] None]
          (mkSinonAssertions f [])))
  = [(true, "f was called 0 times");
     (false, "f was not called at all");
     (false, "f was not called at all")].
Proof. reflexivity. Qed.

(* ===================================================================== *)
(** ** Further properties of the formatter *)
(* ===================================================================== *)

Lemma length_app_string (a b : string) :
  String.length (a ++ b) = String.length a + String.length b.
Proof.
  induction a as [| c a IH]; simpl.
  - reflexivity.
  - rewrite IH. reflexivity.
Qed.

Lemma map_chars_app (f : ascii -> ascii) (a b : string) :
  map_chars f (a ++ b) = map_chars f a ++ map_chars f b.
Proof.
  induction a as [| c a IH]; simpl.
  - reflexivity.
  - rewrite IH. reflexivity.
Qed.

Lemma length_map_chars (f : ascii -> ascii) (s : string) :
  String.length (map_chars f s) = String.length s.
Proof.
  induction s as [| c s IH]; simpl.
  - reflexivity.
  - rewrite IH. reflexivity.
Qed.

Lemma substring_front (a b : string) :
  substring 0 (String.length a) (a ++ b) = a.
Proof.
  induction a as [| c a IH]; simpl.
  - destruct b; reflexivity.
  - rewrite IH. reflexivity.
Qed.

(** X1: [pluralize] hands the word back unchanged exactly when the count
    is 1; for every other count it appends an s. *)
Theorem pluralize_singular (word : string) (count : Z) :
  (pluralize word count = word <-> count = 1%Z)
  /\ (count <> 1%Z -> pluralize word count = word ++ "s").
Proof.
  unfold pluralize. destruct (Z.eqb_spec count 1) as [E | N]; split.
  - split; intros _; [exact E | reflexivity].
  - intro C. contradiction.
  - split; intro H; [| contradiction].
    apply (f_equal String.length) in H. rewrite length_app_string in H.
    simpl in H. lia.
  - reflexivity.
Qed.

Lemma pluralize_singular_witness :
  pluralize "time" 0 = "times" /\ pluralize "time" 1 = "time".
Proof.
  split.
  - apply (proj2 (pluralize_singular "time" 0)). discriminate.
  - apply (proj1 (pluralize_singular "time" 1)). reflexivity.
Defined.

(** X2: [typeOf] is the class tag of the value in lower case, whatever the
    tag. *)
Theorem typeOf_is_lower_tag (value : JSValue) :
  typeOf value = toLowerCase (classTag value).
Proof.
  unfold typeOf, Object_prototype_toString, toLowerCase, slice.
  rewrite !map_chars_app, !length_app_string, !length_map_chars.
  set (t := map_chars lower_char (classTag value)).
  cbn [map_chars String.length append].
  replace (8 + (String.length (classTag value) + 1) - 1 - 8)
    with (String.length (classTag value)) by lia.
  rewrite <- (length_map_chars lower_char (classTag value)). fold t.
  cbn [substring]. apply substring_front.
Qed.

(** X3: whatever the value and the indentation, a token that [format]
    renders holds no double quotation mark. *)
Theorem format_token_has_no_double_quote (value : JSValue) (isIndented : bool)
    (token : string) :
  format value isIndented = Text token -> has_char dq token = false.
Proof.
  unfold format.
  destruct (JSON_stringify value replacer (if isIndented then 2 else 0))
    as [[json |] | e]; try discriminate.
  intro H. injection H as H. subst token.
  destruct (includes _ (str nl)); cbn [append has_char];
    repeat rewrite has_char_app; rewrite single_quotes_no_dq; reflexivity.
Qed.

Lemma format_token_has_no_double_quote_witness :
  has_char dq "`{'say':''hi''}`" = false.
Proof.
  apply (format_token_has_no_double_quote
           (plain [("say", VString (String dq ("hi" ++ str dq)))]) false).
  reflexivity.
Defined.

(** *** The compact rendering stays on one line *)

Lemma digits_have_no_nl (d : Decimal.uint) :
  has_char nl (NilEmpty.string_of_uint d) = false.
Proof. induction d; simpl; auto. Qed.

Lemma of_Z_has_no_nl (z : Z) : has_char nl (of_Z z) = false.
Proof.
  unfold of_Z, NilEmpty.string_of_int.
  destruct (Z.to_int z); simpl; apply digits_have_no_nl.
Qed.

Lemma join_has_no_nl (sep : string) (parts : list string) :
  has_char nl sep = false ->
  Forall (fun p => has_char nl p = false) parts ->
  has_char nl (join sep parts) = false.
Proof.
  intros Hsep H. induction H as [| p rest Hp Hrest IH].
  - reflexivity.
  - destruct rest as [| q rest].
    + exact Hp.
    + change (join sep (p :: q :: rest)) with (p ++ sep ++ join sep (q :: rest)).
      rewrite !has_char_app, Hp, Hsep, IH. reflexivity.
Qed.

Lemma collect_Forall {A : Type} (P : A -> Prop) (steps : list (Completion A)) :
  (forall a, In (Normal a) steps -> P a) ->
  forall l, collect steps = Normal l -> Forall P l.
Proof.
  induction steps as [| [a | e] steps IH]; simpl; intros H l C.
  - injection C as C. subst l. constructor.
  - destruct (collect steps) as [l' |] eqn:C'; [| discriminate].
    injection C as C. subst l. constructor.
    + apply H. left. reflexivity.
    + apply IH; [| reflexivity]. intros b I. apply H. right. exact I.
  - discriminate.
Qed.

(** Without an indentation unit the encoding holds no line feed, whatever
    the replacer. *)
Lemma compact_encoding_has_no_nl
    (rep : string -> JSValue -> Completion JSValue) (fuel : nat) :
  forall (indent key : string) (value : JSValue) (t : string),
    SerializeJSONProperty rep EmptyString fuel indent key value = Normal (Some t) ->
    has_char nl t = false.
Proof.
  induction fuel as [| fuel IH]; intros indent key value t; [discriminate |].
  cbn [SerializeJSONProperty].
  destruct (rep key value) as [r | e]; cbn [bind]; [| discriminate].
  assert (members : forall (props : list (string * JSValue)) strs,
    collect (map (fun kv => SerializeJSONProperty rep EmptyString fuel
                              (indent ++ EmptyString) (fst kv) (snd kv)) props)
    = Normal strs ->
    Forall (fun o => forall u, o = Some u -> has_char nl u = false) strs).
  { intros props strs C. revert C. apply collect_Forall.
    intros o I u E. subst o. apply in_map_iff in I.
    destruct I as [kv [F _]]. apply IH in F. exact F. }
  assert (object : forall (props : list (string * JSValue)) strs,
    Forall (fun o => forall u, o = Some u -> has_char nl u = false) strs ->
    Forall (fun p => has_char nl p = false)
      (flat_map (fun ks =>
                   match snd ks with
                   | Some u =>
                       [QuoteJSONString (fst ks) ++ ":"
                        ++ (if EmptyString =? EmptyString then EmptyString else " ")
                        ++ u]
                   | None => []
                   end)
                (combine (map fst props) strs))).
  { intros props strs C. apply Forall_forall. intros p I.
    apply in_flat_map in I. destruct I as [[k o] [I E]].
    apply in_combine_r in I. rewrite Forall_forall in C. specialize (C o I).
    cbn [fst snd] in E. destruct o as [u |]; [| destruct E].
    destruct E as [E | []]. subst p. cbn [String.eqb].
    rewrite !has_char_app, QuoteJSONString_no_nl, (C u eq_refl). reflexivity. }
  destruct r as [| | b | n | s | source props | items | tag text props | c
                 | description | props];
    try discriminate.
  - intro H. injection H as H. subst t. reflexivity.
  - destruct b; intro H; injection H as H; subst t; reflexivity.
  - destruct n as [z | | neg]; intro H; injection H as H; subst t;
      try reflexivity. apply of_Z_has_no_nl.
  - intro H. injection H as H. subst t. apply QuoteJSONString_no_nl.
  - destruct (collect _) as [strs | e] eqn:C; [| discriminate].
    intro H. injection H as H. subst t.
    apply members in C.
    set (partial := map _ strs).
    assert (Hp : Forall (fun p => has_char nl p = false) partial).
    { unfold partial. apply Forall_forall. intros p I.
      apply in_map_iff in I. destruct I as [o [E I]].
      rewrite Forall_forall in C. specialize (C o I).
      destruct o as [u |]; subst p; [apply C; reflexivity | reflexivity]. }
    destruct partial as [| p rest] eqn:E; [reflexivity |].
    cbn [String.eqb has_char append]. rewrite !has_char_app.
    rewrite (join_has_no_nl "," (p :: rest) eq_refl Hp). reflexivity.
  - destruct (collect _) as [strs | e] eqn:C; [| discriminate].
    intro H. injection H as H. subst t.
    apply members in C. apply (object props) in C.
    destruct (flat_map _ _) as [| p rest] eqn:E; [reflexivity |].
    cbn [String.eqb has_char append]. rewrite !has_char_app.
    rewrite (join_has_no_nl "," (p :: rest) eq_refl C). reflexivity.
  - destruct (collect _) as [strs | e] eqn:C; [| discriminate].
    intro H. injection H as H. subst t.
    apply members in C. apply (object props) in C.
    destruct (flat_map _ _) as [| p rest] eqn:E; [reflexivity |].
    cbn [String.eqb has_char append]. rewrite !has_char_app.
    rewrite (join_has_no_nl "," (p :: rest) eq_refl C). reflexivity.
Qed.

(** X4: without indentation [format] never produces the block form: the
    token holds no line feed, and is the rendered text between one pair of
    backticks. *)
Theorem format_compact_is_one_line (value : JSValue) (token : string) :
  format value false = Text token ->
  has_char nl token = false
  /\ exists body, token = "`" ++ body ++ "`" /\ has_char nl body = false.
Proof.
  unfold format. unfold JSON_stringify. cbn [Nat.min spaces].
  destruct (SerializeJSONProperty replacer EmptyString (S (depth value))
              EmptyString EmptyString value) as [[json |] | e] eqn:J;
    try discriminate.
  apply compact_encoding_has_no_nl in J.
  set (body := single_quotes _).
  assert (B : has_char nl body = false).
  { unfold body, single_quotes, unescape_quotes, unquote_undefined.
    repeat (apply replaceAll_keeps_out; [reflexivity |]). exact J. }
  rewrite includes_char, B. intro H. injection H as H. subst token. split.
  - cbn [append has_char]. rewrite has_char_app, B. reflexivity.
  - exists body. split; [reflexivity | exact B].
Qed.

Lemma format_compact_is_one_line_witness :
  has_char nl ("`[1,{'k':'a" ++ String bs "nb'}]`") = false.
Proof.
  apply (proj1 (format_compact_is_one_line
                  (VArray [VNumber (Finite 1);
                           plain [("k", VString ("a" ++ str nl ++ "b"))]])
                  _ eq_refl)).
Defined.

(** *** Plain texts render as themselves *)

Lemma quote_char_plain (c : ascii) : plain_char c = true -> quote_char c = str c.
Proof.
  destruct c as [[] [] [] [] [] [] [] []]; intro H;
    solve [reflexivity | discriminate H].
Qed.

Lemma plain_char_is_no_dq (c : ascii) : plain_char c = true -> Ascii.eqb dq c = false.
Proof.
  unfold plain_char. intro H.
  apply andb_true_iff in H. destruct H as [H _].
  apply andb_true_iff in H. destruct H as [H _].
  rewrite Ascii.eqb_sym. apply negb_true_iff. exact H.
Qed.

Lemma plain_char_is_no_bs (c : ascii) : plain_char c = true -> Ascii.eqb bs c = false.
Proof.
  unfold plain_char. intro H.
  apply andb_true_iff in H. destruct H as [H _].
  apply andb_true_iff in H. destruct H as [_ H].
  rewrite Ascii.eqb_sym. apply negb_true_iff. exact H.
Qed.

Lemma plain_text_facts (s : string) :
  plain_text s = true ->
  quote_body s = s /\ has_char dq s = false /\ has_char bs s = false.
Proof.
  induction s as [| c s IH]; cbn [plain_text quote_body has_char]; intro H.
  - repeat split.
  - apply andb_true_iff in H. destruct H as [Hc Hs].
    destruct (IH Hs) as [Q [D B]].
    rewrite (quote_char_plain c Hc), Q, D, B.
    rewrite (plain_char_is_no_dq c Hc), (plain_char_is_no_bs c Hc).
    repeat split.
Qed.

Lemma includes_needs_first (c : ascii) (p t : string) :
  has_char c t = false -> includes t (String c p) = false.
Proof.
  induction t as [| d t IH]; intro H.
  - reflexivity.
  - simpl in H. apply orb_false_iff in H. destruct H as [N H].
    cbn [includes prefix]. rewrite (IH H).
    destruct (ascii_dec c d) as [E | _].
    + subst d. rewrite Ascii.eqb_refl in N. discriminate N.
    + reflexivity.
Qed.

Lemma includes_before_closing_quote (x : ascii) (p s : string) :
  has_char dq s = false ->
  includes (s ++ str dq) (String dq (String x p)) = false.
Proof.
  induction s as [| d s IH]; intro H.
  - cbn. destruct (ascii_dec dq dq); reflexivity.
  - cbn [has_char] in H. apply orb_false_iff in H. destruct H as [N H].
    cbn [append includes prefix]. rewrite (IH H).
    destruct (ascii_dec dq d) as [E | _].
    + subst d. rewrite Ascii.eqb_refl in N. discriminate N.
    + reflexivity.
Qed.

Lemma prefix_up_to_quote (m : string) :
  has_char dq m = false ->
  forall s, has_char dq s = false ->
    prefix (m ++ str dq) (s ++ str dq) = true -> s = m.
Proof.
  induction m as [| a m IH]; intros Hm s Hs P.
  - destruct s as [| c s]; [reflexivity |].
    cbn [has_char] in Hs. apply orb_false_iff in Hs. destruct Hs as [N _].
    cbn [append str prefix] in P.
    destruct (ascii_dec dq c) as [E | _]; [| discriminate P].
    subst c. rewrite Ascii.eqb_refl in N. discriminate N.
  - cbn [has_char] in Hm. apply orb_false_iff in Hm. destruct Hm as [Na Hm].
    destruct s as [| c s].
    + cbn [append str prefix] in P.
      destruct (ascii_dec a dq) as [E | _]; [| discriminate P].
      subst a. rewrite Ascii.eqb_refl in Na. discriminate Na.
    + cbn [has_char] in Hs. apply orb_false_iff in Hs. destruct Hs as [_ Hs].
      cbn [append prefix] in P.
      destruct (ascii_dec a c) as [E | _]; [| discriminate P].
      subst c. f_equal. apply IH; assumption.
Qed.

Lemma map_chars_unchanged (c d : ascii) (s : string) :
  has_char c s = false ->
  map_chars (fun x => if Ascii.eqb x c then d else x) s = s.
Proof.
  induction s as [| x s IH]; simpl; intro H.
  - reflexivity.
  - apply orb_false_iff in H. destruct H as [N H].
    rewrite Ascii.eqb_sym, N, (IH H). reflexivity.
Qed.

(** X6: a text of printable characters without double quotation mark or
    backslash, other than the mark of undefined, is rendered as itself
    between single quotation marks and backticks. *)
Theorem format_plain_text (s : string) (isIndented : bool) :
  plain_text s = true -> s <> undefined_mark ->
  format (VString s) isIndented = Text ("`'" ++ s ++ "'`").
Proof.
  intros P N. destruct (plain_text_facts s P) as [Q [D B]].
  rewrite format_text. unfold QuoteJSONString. rewrite Q.
  unfold unquote_undefined. rewrite replaceAll_absent.
  - unfold unescape_quotes. rewrite replaceAll_absent.
    + unfold single_quotes. rewrite replace_char_in_place.
      cbn [map_chars]. rewrite map_chars_app, (map_chars_unchanged dq sq s D).
      cbn. rewrite append_assoc. reflexivity.
    + apply includes_needs_first. cbn [has_char].
      rewrite has_char_app, B. reflexivity.
  - cbn [includes]. apply orb_false_iff. split.
    + cbn [prefix]. destruct (ascii_dec dq dq) as [_ | X]; [| reflexivity].
      destruct (prefix (undefined_mark ++ str dq) (s ++ str dq)) eqn:F;
        [| reflexivity].
      apply prefix_up_to_quote in F; [contradiction | reflexivity | exact D].
    + apply (includes_before_closing_quote "<"%char ("undefined>" ++ str dq) s D).
Qed.

Lemma format_plain_text_witness :
  format (VString "model-loaded") false = Text "`'model-loaded'`".
Proof.
  apply (format_plain_text "model-loaded" false); [reflexivity | discriminate].
Defined.

(* ===================================================================== *)
(** ** Further properties of the assertion set *)
(* ===================================================================== *)

(** Every operation is one call of [pushResult]; of its outcome only the
    message depends on the message argument, and the failure explanation
    starts by naming what was expected of the spy. *)
Lemma invoke_outcome (M : Sinon.Matching) (c : Call) (this : Bound) :
  exists res exp act rest,
    forall m,
      invoke (with_message m c) this =
      pushResult this
        {| message := m; result := res; expected := exp; actual := act;
           error := "Expected " ++ Sinon.name (spy this) ++ rest |}.
Proof.
  destruct c; do 4 eexists; intro m0; reflexivity.
Qed.

(** X7: without a message argument every operation reports its expected
    text as the message when it passes, and a message that starts with
    "Expected" and the name of the spy when it fails. *)
Theorem default_messages (M : Sinon.Matching) (c : Call) (s : Sinon.Spy)
    (r : PushedResult) :
  In r (reports (with_message None c) s) ->
  (pushed_result r = true -> pushed_message r = pushed_expected r)
  /\ (pushed_result r = false ->
      exists rest, pushed_message r = "Expected " ++ Sinon.name s ++ rest).
Proof.
  unfold reports.
  destruct (invoke_outcome M c (mkSinonAssertions s [])) as [res [exp [act [rest E]]]].
  rewrite (E None). cbn. intros [R | []]. subst r. cbn.
  split; intro H; rewrite H.
  - reflexivity.
  - exists rest. reflexivity.
Qed.

Lemma default_messages_witness :
  exists rest,
    "Expected f to never be called with: `[1]`, but it was."
    = "Expected " ++ Sinon.name spy_f ++ rest.
Proof.
  apply (proj2 (default_messages Sinon.structural
                  (NotCalledWith [VNumber (Finite 1)] (Some "x")) spy_f _
                  (or_introl eq_refl))).
  reflexivity.
Defined.

(** X8: a message argument that is not empty changes nothing but the
    message: it replaces the default one of a passing operation and is put,
    with a line feed, in front of the default one of a failing operation. *)
Theorem message_argument (M : Sinon.Matching) (c : Call) (s : Sinon.Spy) (m : string) :
  m <> EmptyString ->
  map (fun r => (pushed_result r, pushed_expected r, pushed_actual r))
      (reports (with_message (Some m) c) s)
  = map (fun r => (pushed_result r, pushed_expected r, pushed_actual r))
        (reports (with_message None c) s)
  /\ map pushed_message (reports (with_message (Some m) c) s)
     = map (fun r => if pushed_result r then m
                     else m ++ str nl ++ pushed_message r)
           (reports (with_message None c) s).
Proof.
  intro N. unfold reports.
  destruct (invoke_outcome M c (mkSinonAssertions s [])) as [res [exp [act [rest E]]]].
  rewrite (E None), (E (Some m)). cbn.
  destruct (String.eqb_spec m EmptyString) as [X | _]; [contradiction |].
  split; [reflexivity |].
  destruct res; [reflexivity |]. rewrite append_assoc. reflexivity.
Qed.

Lemma message_argument_witness :
  map pushed_message
    (reports (M := Sinon.structural) (CalledTimes 2 (Some "twice")) spy_f)
  = ["twice" ++ str nl ++ "Expected f to be called 2 times, but it was called 1 time."].
Proof.
  exact (proj2 (message_argument Sinon.structural (CalledTimes 2 None) spy_f "twice"
                  ltac:(discriminate))).
Defined.




(** The last call of a spy that was called. *)
Lemma getCall_last (s : Sinon.Spy) :
  0 < Sinon.callCount s -> exists c, Sinon.getCall s (-1) = Some c.
Proof.
  unfold Sinon.getCall, Sinon.callCount. intro H.
  change (-1 <? 0)%Z with true. cbv iota.
  destruct (Z.ltb_spec (-1 + Z.of_nat (List.length (Sinon.calls s))) 0); [lia |].
  destruct (Z.leb_spec (Z.of_nat (List.length (Sinon.calls s)))
              (-1 + Z.of_nat (List.length (Sinon.calls s)))); [lia |].
  cbn [orb].
  destruct (nth_error (Sinon.calls s)
              (Z.to_nat (-1 + Z.of_nat (List.length (Sinon.calls s))))) as [c |] eqn:E.
  - exists c. reflexivity.
  - apply nth_error_None in E. lia.
Qed.

(** X11: once the spy has been called, each negative check on the last
    call reports the opposite verdict of its positive check. *)
Theorem last_checks_negate (M : Sinon.Matching)
    (args : list JSValue) (value : JSValue) (m m' : option string) (s : Sinon.Spy) :
  0 < Sinon.callCount s ->
  map pushed_result (reports (LastNotCalledWith args m) s)
  = map negb (map pushed_result (reports (LastCalledWith args m') s))
  /\ map pushed_result (reports (LastNotCalledWithExactly args m) s)
     = map negb (map pushed_result (reports (LastCalledWithExactly args m') s))
  /\ map pushed_result (reports (LastDidNotReturnWith value m) s)
     = map negb (map pushed_result (reports (LastReturnedWith value m') s)).
Proof.
  intro H. destruct (getCall_last s H) as [c E].
  unfold reports, invoke, lastNotCalledWith, lastCalledWith,
    lastNotCalledWithExactly, lastCalledWithExactly, lastDidNotReturnWith,
    lastReturnedWith.
  cbn [spy]. rewrite E. repeat split.
Qed.

Lemma last_checks_negate_witness :
  map pushed_result
    (reports (M := Sinon.structural) (LastNotCalledWith [VNumber (Finite 1)] None) spy_f)
  = [false].
Proof.
  rewrite (proj1 (last_checks_negate Sinon.structural [VNumber (Finite 1)] VNull
                    None None spy_f (le_n 1))).
  reflexivity.
Defined.

(** X12: [called] passes exactly when [notCalled] fails, and two
    [calledTimes] checks that both pass were given the same count, so at
    most one of [notCalled], [calledOnce] and [calledTwice] passes. *)
Theorem count_checks_exclude (M : Sinon.Matching) (s : Sinon.Spy)
    (n n' : Z) (m m' : option string) :
  map pushed_result (reports (Called m) s)
  = map negb (map pushed_result (reports (NotCalled m') s))
  /\ (map pushed_result (reports (CalledTimes n m) s) = [true] ->
      map pushed_result (reports (CalledTimes n' m') s) = [true] ->
      n = n').
Proof.
  split.
  - cbn. f_equal. unfold Sinon.callCount.
    destruct (Sinon.calls s); reflexivity.
  - cbn. intros H H'. injection H as H. injection H' as H'.
    apply Z.eqb_eq in H. apply Z.eqb_eq in H'. congruence.
Qed.

Lemma count_checks_exclude_witness :
  map pushed_result (reports (M := Sinon.structural) (CalledTimes 1 None) spy_f) = [true]
  /\ map pushed_result (reports (M := Sinon.structural) (CalledOnce None) spy_f) = [true]
  /\ 1%Z = 1%Z.
Proof.
  split; [reflexivity |]. split; [reflexivity |].
  apply (proj2 (count_checks_exclude Sinon.structural spy_f 1 1 None None));
    reflexivity.
Defined.



(* ===================================================================== *)
(** ** Further properties of the factory *)
(* ===================================================================== *)

Lemma lookup_is_smaller (key : string) (props : list (string * JSValue)) :
  ToBoolean (lookup key props) = true ->
  size (lookup key props) <= list_sum (map (fun p => size (snd p)) props).
Proof.
  induction props as [| [k v] rest IH]; simpl.
  - discriminate.
  - destruct (k =? key); intro T.
    + lia.
    + specialize (IH T). lia.
Qed.

Lemma proxy_is_smaller (spy : JSValue) :
  hasSinonProxy spy = true -> size (Get spy "proxy") < size spy.
Proof.
  unfold hasSinonProxy. intro H. apply andb_true_iff in H. destruct H as [T _].
  destruct spy; simpl in *; try discriminate; apply lookup_is_smaller in T; lia.
Qed.

(** What [validateSpy] decides, by the value at the end of the proxies. *)
Lemma validateSpy_decides (n : nat) :
  forall spy, size spy < n ->
    exists inner,
      Unwraps spy inner /\ hasSinonProxy inner = false
      /\ validateSpy spy =
         if ToBoolean inner && (typeof inner =? "function")
            && (typeof (Get inner "getCall") =? "function")
         then Normal tt
         else failValidation inner.
Proof.
  induction n as [| n IH]; intros spy L; [lia |].
  rewrite validateSpy_unfold.
  destruct (hasSinonProxy spy) eqn:W.
  - rewrite (wrapped_is_truthy spy W).
    destruct (IH (Get spy "proxy")) as [inner [U [N E]]].
    + pose proof (proxy_is_smaller spy W). lia.
    + exists inner. split; [apply Unwraps_proxy; assumption |].
      split; [exact N | exact E].
  - exists spy. split; [apply Unwraps_here |]. split; [exact W |].
    destruct (ToBoolean spy); [| reflexivity].
    destruct (typeof spy =? "function");
      destruct (typeof (Get spy "getCall") =? "function"); reflexivity.
Qed.

(** X14: when the proxies of the value end and the factory raises, the
    value found at the end of the proxies is no function or has no
    [getCall] function, and what is raised is the validation error that
    names that value, or, when that value has no conversion to a string,
    the type error of the conversion. *)
Theorem assert_spy_error (spy : JSValue) (this : TestContext) (e : JSError) :
  proxies_end spy ->
  assert_spy spy this = Throw e ->
  exists inner,
    Unwraps spy inner /\ hasSinonProxy inner = false
    /\ (typeof inner <> "function" \/ typeof (Get inner "getCall") <> "function")
    /\ match ToString inner with
       | Normal text =>
           e = Error ("qunit-sinon-assertions: " ++ text ++ " is not a spy")
       | Throw conversion => e = conversion
       end.
Proof.
  intros _. unfold assert_spy.
  destruct (validateSpy_decides (S (size spy)) spy (Nat.lt_succ_diag_r _))
    as [inner [U [N E]]].
  rewrite E. intro H. exists inner. split; [exact U |]. split; [exact N |].
  assert (F : forall e',
             match @failValidation unit inner with
             | Throw e0 => Throw e0
             | Normal _ => Normal (mkSinonAssertions spy this)
             end = Throw e' ->
             match ToString inner with
             | Normal text =>
                 e' = Error ("qunit-sinon-assertions: " ++ text ++ " is not a spy")
             | Throw conversion => e' = conversion
             end).
  { intros e'. unfold failValidation. destruct (ToString inner); cbn [bind];
      intro X; injection X as X; subst e'; reflexivity. }
  destruct (ToBoolean inner) eqn:T.
  - destruct (String.eqb_spec (typeof inner) "function") as [P | P];
      destruct (String.eqb_spec (typeof (Get inner "getCall")) "function") as [G | G];
      cbn [andb] in H; try discriminate H; (split; [auto | apply F; exact H]).
  - cbn [andb] in H. split; [| apply F; exact H].
    left. apply falsy_is_no_function. exact T.
Qed.

Lemma assert_spy_error_witness :
  exists inner,
    Unwraps (plain [("proxy", VNullProto [("isSinonProxy", VBool true)])]) inner
    /\ hasSinonProxy inner = false
    /\ (typeof inner <> "function" \/ typeof (Get inner "getCall") <> "function")
    /\ match ToString inner with
       | Normal text =>
           TypeError "Cannot convert object to primitive value"
           = Error ("qunit-sinon-assertions: " ++ text ++ " is not a spy")
       | Throw conversion =>
           TypeError "Cannot convert object to primitive value" = conversion
       end.
Proof.
  apply (assert_spy_error
           (plain [("proxy", VNullProto [("isSinonProxy", VBool true)])]) []).
  - intros v U. inversion U as [| ? ? W U']; subst.
    + reflexivity.
    + inversion U' as [| ? ? W' ?]; subst.
      * reflexivity.
      * cbv in W'. discriminate W'.
  - reflexivity.
Defined.

(** X15: the factory returns an instance exactly when following the
    proxies ends at a function that has a [getCall] function; the instance
    is bound to the value it was given, not to what the proxies lead to. *)
Theorem assert_spy_accepts (spy : JSValue) (this : TestContext) :
  assert_spy spy this = Normal (mkSinonAssertions spy this) <->
  exists inner,
    Unwraps spy inner /\ hasSinonProxy inner = false
    /\ typeof inner = "function" /\ typeof (Get inner "getCall") = "function".
Proof.
  unfold assert_spy. split.
  - destruct (validateSpy_decides (S (size spy)) spy (Nat.lt_succ_diag_r _))
      as [inner [U [N E]]].
    rewrite E. intro H. exists inner. split; [exact U |]. split; [exact N |].
    pose proof (failValidation_raises unit inner) as R.
    destruct (ToBoolean inner);
      destruct (String.eqb_spec (typeof inner) "function") as [F | F];
      destruct (String.eqb_spec (typeof (Get inner "getCall")) "function") as [G | G];
      cbn [andb] in H;
      try (destruct (@failValidation unit inner); [discriminate R | discriminate H]).
    split; assumption.
  - intros [inner [U [N [F G]]]].
    assert (V : validateSpy spy = Normal tt).
    { induction U as [v | v inner W U IH].
      - rewrite validateSpy_unfold, N, F, G.
        destruct v; try discriminate F. reflexivity.
      - rewrite validateSpy_unfold, W, (wrapped_is_truthy v W).
        apply IH; assumption. }
    rewrite V. reflexivity.
Qed.

Lemma assert_spy_accepts_witness :
  assert_spy
    (plain [("proxy", VFunction "spy" [("isSinonProxy", VBool true);
                                        ("getCall", VFunction "getCall" [])])]) []
  = Normal (mkSinonAssertions
              (plain [("proxy", VFunction "spy" [("isSinonProxy", VBool true);
                                                  ("getCall", VFunction "getCall" [])])])
              []).
Proof.
  apply (proj2 (assert_spy_accepts _ [])).
  exists (VFunction "spy" [("isSinonProxy", VBool true);
                           ("getCall", VFunction "getCall" [])]).
  split; [| repeat split].
  apply Unwraps_proxy; [reflexivity | apply Unwraps_here].
Defined.

(* ===================================================================== *)
(** ** The listing of the recorded calls *)
(* ===================================================================== *)

Lemma count_char_app (c : ascii) (a b : string) :
  count_char c (a ++ b) = count_char c a + count_char c b.
Proof.
  induction a as [| d a IH]; simpl.
  - reflexivity.
  - rewrite IH. lia.
Qed.

Lemma count_char_absent (c : ascii) (s : string) :
  has_char c s = false -> count_char c s = 0.
Proof.
  induction s as [| d s IH]; simpl; intro H.
  - reflexivity.
  - apply orb_false_iff in H. destruct H as [N H].
    rewrite N, (IH H). reflexivity.
Qed.

(** Joining one-line parts with a line feed gives one line per part. *)
Lemma join_lines (parts : list string) :
  Forall (fun p => has_char nl p = false) parts ->
  count_char nl (join (str nl) parts) = List.length parts - 1.
Proof.
  intro H. induction H as [| p rest Hp Hrest IH].
  - reflexivity.
  - destruct rest as [| q rest].
    + cbn [join List.length]. apply count_char_absent. exact Hp.
    + change (join (str nl) (p :: q :: rest))
        with (p ++ str nl ++ join (str nl) (q :: rest)).
      rewrite !count_char_app, IH, (count_char_absent nl p Hp).
      cbn [List.length]. cbn. lia.
Qed.

(** The text that stands in a message for a value [format] renders without
    indentation is on one line. *)
Lemma fmt_is_one_line (value : JSValue) (token : string) :
  format value false = Text token -> has_char nl (fmt value) = false.
Proof.
  intro F. unfold fmt. rewrite F. cbn [interpolate].
  revert F. unfold format, JSON_stringify. cbn [Nat.min spaces].
  destruct (SerializeJSONProperty replacer EmptyString (S (depth value))
              EmptyString EmptyString value) as [[json |] | e] eqn:J;
    try discriminate.
  apply compact_encoding_has_no_nl in J.
  set (body := single_quotes _).
  assert (B : has_char nl body = false).
  { unfold body, single_quotes, unescape_quotes, unquote_undefined.
    repeat (apply replaceAll_keeps_out; [reflexivity |]). exact J. }
  rewrite includes_char, B. intro H. injection H as H. subst token.
  cbn [append has_char]. rewrite has_char_app, B. reflexivity.
Qed.

(** X16: when the name of the spy is on one line and [format] renders
    every recorded argument list as a text, the actual text of
    [calledWith] and of [calledWithExactly] on a spy that was called has
    exactly one line for each recorded call. *)
Theorem called_with_actual_lines (M : Sinon.Matching)
    (args : list JSValue) (message : option string) (s : Sinon.Spy) (r : PushedResult) :
  has_char nl (Sinon.name s) = false ->
  (forall c, In c (Sinon.calls s) ->
     exists token, format (VArray (Sinon.call_args c)) false = Text token) ->
  0 < Sinon.callCount s ->
  In r (reports (CalledWith args message) s ++ reports (CalledWithExactly args message) s)
  ->
  count_char nl (pushed_actual r) = Sinon.callCount s - 1.
Proof.
  intros Hname Hargs Hcalled I.
  assert (A : pushed_actual r =
              Sinon.name s ++ " was called with: "
              ++ join (str nl)
                   (map (fun c => fmt (VArray (Sinon.call_args c))) (Sinon.calls s))).
  { assert (E : (Sinon.callCount s =? 0)%nat = false) by (apply Nat.eqb_neq; lia).
    unfold reports, invoke, calledWith, calledWithExactly, pushResult,
      QUnit_pushResult in I.
    cbn [spy testContext app] in I. rewrite E in I.
    rewrite join_items_formatItems in I. unfold Sinon.args in I.
    rewrite map_map in I.
    destruct I as [I | [I | []]]; subst r; reflexivity. }
  rewrite A, !count_char_app, (count_char_absent nl _ Hname), join_lines.
  - rewrite length_map. cbn. unfold Sinon.callCount. lia.
  - apply Forall_forall. intros p I'. apply in_map_iff in I'.
    destruct I' as [c [E I']]. subst p.
    destruct (Hargs c I') as [token F]. exact (fmt_is_one_line _ token F).
Qed.

Lemma called_with_actual_lines_witness :
  count_char nl ("g was called with: `[1]`" ++ str nl ++ "`['a',null]`")
  = Sinon.callCount spy_g - 1.
Proof.
  apply (called_with_actual_lines Sinon.structural [VNull] None spy_g
           {| pushed_result := false;
              pushed_expected := "g was called with: `[null]`";
              pushed_actual := "g was called with: `[1]`" ++ str nl ++ "`['a',null]`";
              pushed_message :=
                "Expected g to be called with: `[null]`, but it was called with: `[1]`"
                ++ str nl ++ "`['a',null]`." |}).
  - reflexivity.
  - intros c [E | [E | []]]; subst c; eexists; reflexivity.
  - apply le_S, le_n.
  - left. reflexivity.
Defined.

(* ===================================================================== *)
(** ** Indentation and numbers *)
(* ===================================================================== *)

(** X17: the indentation flag changes the rendering of nothing but an
    array or an object that the replacer hands back with at least one
    member: every other value is rendered the same with and without it. *)
Theorem indentation_only_in_containers (value : JSValue) :
  match replacer EmptyString value with
  | Normal (VArray (_ :: _)) | Normal (VObject _ _ (_ :: _)) => True
  | _ => format value true = format value false
  end.
Proof.
  unfold format, JSON_stringify. cbn [SerializeJSONProperty].
  destruct (replacer EmptyString value) as [r | e] eqn:R; [| reflexivity].
  apply replacer_returns in R. destruct R as [E _]. cbn [bind].
  destruct r as [| | b | n | s | source props | items | tag text props | c
                 | description | props];
    try discriminate E;
    try reflexivity;
    try (destruct b; reflexivity);
    try (destruct n; reflexivity);
    try (destruct items; [reflexivity | exact I]);
    try (destruct props; [reflexivity | exact I]).
Qed.

Lemma digits_lack (c : ascii) (d : Decimal.uint) :
  (nat_of_ascii c <? 45)%nat || (57 <? nat_of_ascii c)%nat = true ->
  has_char c (NilEmpty.string_of_uint d) = false.
Proof.
  intro H.
  assert (N : forall x, (45 <=? nat_of_ascii x)%nat && (nat_of_ascii x <=? 57)%nat = true ->
                        Ascii.eqb c x = false).
  { intros x Hx. apply Ascii.eqb_neq. intro E. subst x.
    apply andb_true_iff in Hx. destruct Hx as [Lo Hi].
    apply Nat.leb_le in Lo. apply Nat.leb_le in Hi.
    apply orb_true_iff in H. destruct H as [H | H]; apply Nat.ltb_lt in H; lia. }
  induction d; cbn [NilEmpty.string_of_uint has_char]; try reflexivity;
    rewrite N by reflexivity; exact IHd.
Qed.

Lemma of_Z_lacks (c : ascii) (z : Z) :
  (nat_of_ascii c <? 45)%nat || (57 <? nat_of_ascii c)%nat = true ->
  has_char c (of_Z z) = false.
Proof.
  intro H. unfold of_Z, NilEmpty.string_of_int.
  destruct (Z.to_int z) as [d | d]; cbn [has_char].
  - apply digits_lack. exact H.
  - rewrite (digits_lack c d H).
    replace (Ascii.eqb c "-") with false; [reflexivity |].
    symmetry. apply Ascii.eqb_neq. intro E. subst c. discriminate H.
Qed.

(** X18: an integer of at most 2^53 in magnitude, which the host holds
    exactly and prints with all its digits, is rendered as its decimal
    text between backticks; a number that is not finite is rendered as
    [null]. *)
Theorem format_number (isIndented : bool) :
  (forall z, (Z.abs z <= 2 ^ 53)%Z ->
     format (VNumber (Finite z)) isIndented = Text ("`" ++ of_Z z ++ "`"))
  /\ format (VNumber NaN) isIndented = Text "`null`"
  /\ (forall negative,
        format (VNumber (Infinity negative)) isIndented = Text "`null`").
Proof.
  split; [| split; [| intro negative]; destruct isIndented; reflexivity].
  intros z _.
  assert (Q : has_char dq (of_Z z) = false) by (apply of_Z_lacks; reflexivity).
  assert (L : has_char nl (of_Z z) = false) by (apply of_Z_lacks; reflexivity).
  unfold format.
  replace (JSON_stringify (VNumber (Finite z)) replacer (if isIndented then 2 else 0))
    with (Normal (Some (of_Z z))) by (destruct isIndented; reflexivity).
  unfold unquote_undefined, unescape_quotes, single_quotes.
  rewrite (replaceAll_absent _ "undefined" (of_Z z))
    by (apply includes_needs_first; exact Q).
  rewrite (replaceAll_absent _ (str sq) (of_Z z))
    by (apply includes_needs_first; apply of_Z_lacks; reflexivity).
  rewrite (replaceAll_absent (str dq) (str sq) (of_Z z))
    by (apply includes_needs_first; exact Q).
  rewrite includes_char, L. reflexivity.
Qed.

Lemma format_number_witness :
  format (VNumber (Finite (-42))) false = Text "`-42`".
Proof.
  apply (proj1 (format_number false) (-42)%Z). discriminate.
Defined.
